(** * A shallow embedding of the Flask blog application [app.py]

    The request handlers of [app.py] are embedded as functions in a small
    state-and-exception monad over an explicit world: the two relational
    tables, the upload directory, the cookie session, the flashed notices
    and a journal of the effects a request performed.  Texts are modelled
    over the first 256 code points ([string] from the standard library).
    Three library functions the handlers call stay parameters: the
    [type=int] conversion of a query argument, [secure_filename], and the
    store's reading of a textual identifier as a primary key. *)

From Stdlib Require Import ZArith Lia Bool Ascii.
From stdpp Require Import base option strings list sorting gmap fin_maps.

Local Open Scope Z_scope.

(** ** Python numbers: [int / int] and [math.ceil] *)

Module PyNum.

(** A finite binary64 value [mant * 2 ^ expo]. *)
Record pyfloat := Finite { mant : Z; expo : Z }.

Inductive ArithError := ZeroDivisionError | OverflowError.

Definition DBL_MANT_DIG : Z := 53.
Definition DBL_MAX_EXP : Z := 1024.
Definition DBL_MIN_EXP : Z := -1021.

(** [int.bit_length] *)
Definition bit_length (n : Z) : Z :=
  if n =? 0 then 0 else Z.log2 (Z.abs n) + 1.

(** [x] rounded to a multiple of [2 ^ extra], ties to even; [inexact]
    is the sticky bit of what was already dropped below [x]. *)
Definition round_half_even (x : Z) (inexact : bool) (extra : Z) : Z :=
  let unit := 2 ^ extra in
  let half := 2 ^ (extra - 1) in
  let q := x / unit in
  let r := x mod unit in
  if (half <? r) || ((r =? half) && (inexact || Z.odd q))
  then (q + 1) * unit
  else q * unit.

(** True division of two Python ints: the binary64 value nearest to the
    exact quotient (ties to even), [OverflowError] when it is too large
    for a float, zero when it underflows.  The steps are those of the
    interpreter: scale so that the integer quotient carries two or
    three bits more than a double's mantissa, then round once. *)
Definition long_true_divide (a b : Z) : ArithError + pyfloat :=
  if b =? 0 then inl ZeroDivisionError
  else if a =? 0 then inr (Finite 0 0)
  else
    let negate := xorb (a <? 0) (b <? 0) in
    let a := Z.abs a in
    let b := Z.abs b in
    let diff := bit_length a - bit_length b in
    if DBL_MAX_EXP <? diff then inl OverflowError
    else if diff <? DBL_MIN_EXP - DBL_MANT_DIG - 1 then inr (Finite 0 0)
    else
      let shift := Z.max diff DBL_MIN_EXP - DBL_MANT_DIG - 2 in
      let num := if shift <=? 0 then a * 2 ^ (- shift) else a in
      let den := if shift <=? 0 then b else b * 2 ^ shift in
      let x := num / den in
      let inexact := negb (num mod den =? 0) in
      let extra_bits :=
        Z.max (bit_length x) (DBL_MIN_EXP - shift) - DBL_MANT_DIG in
      let m := round_half_even x inexact extra_bits in
      if DBL_MAX_EXP <? shift + bit_length m then inl OverflowError
      else inr (Finite (if negate then - m else m) shift).

(** [math.ceil] of a float: the least integer not below it. *)
Definition math_ceil (f : pyfloat) : Z :=
  if 0 <=? expo f then mant f * 2 ^ expo f
  else - ((- mant f) / 2 ^ (- expo f)).

(** [max(1, math.ceil(total / per_page))] *)
Definition last_page_of (total per_page : Z) : ArithError + Z :=
  match long_true_divide total per_page with
  | inr quotient => inr (Z.max 1 (math_ceil quotient))
  | inl e => inl e
  end.

(** The mathematical ceiling of [t / p], for [0 < p]. *)
Definition ceil_div (t p : Z) : Z := - ((- t) / p).

End PyNum.

Import PyNum.


(** ** Python and SQL text *)

Module Text.

Definition code (c : ascii) : N := Ascii.N_of_ascii c.

Definition in_range (lo hi : N) (c : ascii) : bool :=
  ((lo <=? code c) && (code c <=? hi))%N.

(** The characters [str.strip()] removes: the ASCII white space
    (including the separators 28..31), NEL and the no-break space. *)
Definition py_isspace (c : ascii) : bool :=
  in_range 9 13 c || in_range 28 32 c
  || (code c =? 133)%N || (code c =? 160)%N.

(** [str.lower()] on one character: the ASCII capitals and the Latin-1
    capitals (the multiplication sign 215 is not a letter). *)
Definition py_lower_char (c : ascii) : ascii :=
  if in_range 65 90 c
     || (in_range 192 222 c && negb (code c =? 215)%N)
  then Ascii.ascii_of_N (code c + 32) else c.

(** SQL [lower()]: the ASCII capitals only. *)
Definition sql_lower_char (c : ascii) : ascii :=
  if in_range 65 90 c then Ascii.ascii_of_N (code c + 32) else c.

Fixpoint map_chars (f : ascii -> ascii) (s : string) : string :=
  match s with
  | EmptyString => EmptyString
  | String c s' => String (f c) (map_chars f s')
  end.

Definition py_lower : string -> string := map_chars py_lower_char.
Definition sql_lower : string -> string := map_chars sql_lower_char.

Fixpoint lstrip (s : string) : string :=
  match s with
  | EmptyString => EmptyString
  | String c s' => if py_isspace c then lstrip s' else s
  end.

Fixpoint rstrip (s : string) : string :=
  match s with
  | EmptyString => EmptyString
  | String c s' =>
      match rstrip s' with
      | EmptyString => if py_isspace c then EmptyString
                       else String c EmptyString
      | t => String c t
      end
  end.

(** [s.strip()] *)
Definition strip (s : string) : string := rstrip (lstrip s).

(** [c in s] for a one-character [c]. *)
Fixpoint contains (c : ascii) (s : string) : bool :=
  match s with
  | EmptyString => false
  | String d s' => Ascii.eqb c d || contains c s'
  end.

(** The two halves of [s] around its last occurrence of [c]. *)
Fixpoint rpartition (c : ascii) (s : string) : option (string * string) :=
  match s with
  | EmptyString => None
  | String d s' =>
      match rpartition c s' with
      | Some (h, t) => Some (String d h, t)
      | None => if Ascii.eqb c d then Some (EmptyString, s') else None
      end
  end.

(** [s.rsplit(c, 1)] *)
Definition rsplit1 (c : ascii) (s : string) : list string :=
  match rpartition c s with
  | Some (h, t) => [h; t]
  | None => [s]
  end.

(** SQL [text LIKE pat] without an escape character, as the SQLite
    fallback store reads it: [%] stands for any run of characters, [_]
    for any single one, every other character for itself. *)
Fixpoint like (pat text : string) : bool :=
  match pat with
  | EmptyString =>
      match text with EmptyString => true | String _ _ => false end
  | String p pat' =>
      if Ascii.eqb p "%"%char then
        (fix any (t : string) : bool :=
           like pat' t
           || match t with
              | EmptyString => false
              | String _ t' => any t'
              end) text
      else
        match text with
        | EmptyString => false
        | String c text' =>
            (Ascii.eqb p "_"%char || Ascii.eqb p c) && like pat' text'
        end
  end.

(** [column.ilike(pat)], rendered as [lower(column) LIKE lower(pat)]. *)
Definition ilike (text pat : string) : bool :=
  like (sql_lower pat) (sql_lower text).

(** [posixpath.join(a, b)] *)
Definition ends_with_slash (s : string) : bool :=
  match String.get (String.length s - 1) s with
  | Some c => Ascii.eqb c "/"%char
  | None => false
  end.

Definition os_path_join (a b : string) : string :=
  match b with
  | String "/"%char _ => b
  | _ => if bool_decide (a = "") || ends_with_slash a
         then a +:+ b else a +:+ "/" +:+ b
  end.

End Text.

Import Text.

(** ** Data model *)

(** The rows of the two tables.  The primary key [sr_no] is the key under
    which a row is stored; a loaded object is the pair of key and row. *)
Module Contact.
Record t := mk {
  name : string;
  email : string;
  phone_no : string;
  msg : string;
  date : Z;
}.
End Contact.

Module Posts.
Record t := mk {
  title : string;
  slug : string;          (* unique *)
  content : string;
  tagline : string;
  date : Z;
  img_file : option string;
}.
End Posts.

Definition PostObj : Type := Z * Posts.t.

(** The merged parameter set: the secrets come from the environment, the
    rest from the [params] object of [config.json]. *)
Record Params := {
  admin_username : string;
  admin_password : string;
  gmail_user : string;
  gmail_pass : string;
  no_of_posts : option Z;         (* [int(...)] of the configured value *)
  upload_folder : option string;
}.

Record PublicConfig := {
  cfg_no_of_posts : option Z;
  cfg_upload_folder : option string;
}.

(** [os.getenv(key, "")] *)
Definition getenv (env : gmap string string) (key : string) : string :=
  default "" (env !! key).

Definition load_params (cfg : PublicConfig) (env : gmap string string)
  : Params :=
  {| admin_username := getenv env "ADMIN_USERNAME";
     admin_password := getenv env "ADMIN_PASSWORD";
     gmail_user := getenv env "GMAIL_USER";
     gmail_pass := getenv env "GMAIL_PASS";
     no_of_posts := cfg_no_of_posts cfg;
     upload_folder := cfg_upload_folder cfg |}.

Definition UPLOAD_FOLDER (params : Params) : string :=
  default "static/uploads" (upload_folder params).

Definition ALLOWED_EXTENSIONS : gset string :=
  list_to_set ["png"; "jpg"; "jpeg"; "gif"; "webp"].

Definition allowed_file (filename : string) : bool :=
  contains "." filename
  && match rsplit1 "." filename !! 1%nat with
     | Some ext => bool_decide (py_lower ext ∈ ALLOWED_EXTENSIONS)
     | None => false
     end.

(** ** Requests and responses *)

Inductive Method := GET | POST.

Inductive Route :=
| r_index
| r_post (post_slug : string)
| r_about
| r_contact
| r_login
| r_logout
| r_dashboard
| r_edit (sr_no : string)
| r_delete (sr_no : Z)
| r_upload
| r_search.

Global Instance Method_eq_dec : EqDecision Method.
Proof. solve_decision. Defined.

(** The [methods=[...]] of each [@app.route]; [GET] when not given. *)
Definition route_methods (r : Route) : list Method :=
  match r with
  | r_contact | r_login | r_edit _ | r_upload => [GET; POST]
  | r_delete _ => [POST]
  | _ => [GET]
  end.

Record FileStorage := { filename : string; stream : string }.

Record Request := {
  route : Route;
  method : Method;
  args : gmap string string;
  form : gmap string string;
  files : gmap string FileStorage;
  now : Z;                        (* [datetime.now()] *)
  smtp_error : option string;     (* what the mail transport raises *)
}.

Inductive Url :=
| url_for (endpoint : string)
| url_for_page (endpoint : string) (page : Z)
| request_url (r : Route).

Inductive View :=
| index_html (posts : list PostObj) (prev next : option Url)
             (page last_page total : Z)
| post_html (post : PostObj)
| about_html
| contact_html
| login_html
| dashboard_html (posts : list PostObj)
| edit_html (post : option PostObj)
| search_html (q : string) (results : list PostObj)
| upload_form
| not_found_html
| server_error_html.

Inductive Response :=
| render_template (v : View) (status : Z)
| redirect (location : Url)
| method_not_allowed.

(** ** The world a request runs in *)

Record MailMessage := {
  subject : string;
  sender : string;
  recipients : list string;
  body : string;
}.

Inductive Event :=
| ev_select (table : string)
| ev_commit
| ev_rollback
| ev_mail (m : MailMessage)
| ev_log_warning (text : string)
| ev_file_save (path : string).

Record World := {
  posts : gmap Z Posts.t;
  contacts : gmap Z Contact.t;
  uploaded : gmap string string;        (* path -> bytes written *)
  session : gmap string string;
  flashes : list (string * string);     (* (message, category) *)
  journal : list Event;
}.

(** Pending changes of the request's database session. *)
Inductive DbOp :=
| op_add_contact (c : Contact.t)
| op_add_post (p : Posts.t)
| op_update_post (k : Z) (p : Posts.t)
| op_delete_post (k : Z).

Record Ctx := { world : World; uow : list DbOp }.

Inductive Raised :=
| NotFound
| IntegrityError
| ArithmeticError (e : ArithError)
| AttributeError
| MailError (text : string).

(** [str(e)] *)
Definition exc_text (e : Raised) : string :=
  match e with
  | NotFound => "404 Not Found"
  | IntegrityError => "IntegrityError"
  | ArithmeticError ZeroDivisionError => "division by zero"
  | ArithmeticError OverflowError =>
      "integer division result too large for a float"
  | AttributeError => "AttributeError"
  | MailError text => text
  end.

(** Handlers: state over [Ctx], with exceptions. *)
Definition M (A : Type) : Type := Ctx -> (Raised + A) * Ctx.

Global Instance M_ret : MRet M := fun A a c => (inr a, c).
Global Instance M_bind : MBind M := fun A B f m c =>
  match m c with
  | (inr a, c') => f a c'
  | (inl e, c') => (inl e, c')
  end.

Definition raise {A} (e : Raised) : M A := fun c => (inl e, c).

(** [try: body  except Exception as e: handler(e)] *)
Definition try_except {A} (body : M A) (handler : Raised -> M A) : M A :=
  fun c =>
    match body c with
    | (inr a, c') => (inr a, c')
    | (inl e, c') => handler e c'
    end.

Definition get_world : M World := fun c => (inr (world c), c).

Definition modify_world (f : World -> World) : M unit :=
  fun c => (inr tt, {| world := f (world c); uow := uow c |}).

Definition log_event (e : Event) (w : World) : World :=
  {| posts := posts w; contacts := contacts w; uploaded := uploaded w;
     session := session w; flashes := flashes w;
     journal := journal w ++ [e] |}.

Definition set_session (s : gmap string string) (w : World) : World :=
  {| posts := posts w; contacts := contacts w; uploaded := uploaded w;
     session := s; flashes := flashes w; journal := journal w |}.

Definition add_flash (message category : string) (w : World) : World :=
  {| posts := posts w; contacts := contacts w; uploaded := uploaded w;
     session := session w; flashes := flashes w ++ [(message, category)];
     journal := journal w |}.

Definition set_tables (ps : gmap Z Posts.t) (cs : gmap Z Contact.t)
    (w : World) : World :=
  {| posts := ps; contacts := cs; uploaded := uploaded w;
     session := session w; flashes := flashes w; journal := journal w |}.

Definition write_file (path data : string) (w : World) : World :=
  {| posts := posts w; contacts := contacts w;
     uploaded := <[path := data]> (uploaded w);
     session := session w; flashes := flashes w; journal := journal w |}.

(** An arithmetic result inside a handler. *)
Definition arith {A} (r : ArithError + A) : M A :=
  match r with
  | inr a => mret a
  | inl e => raise (ArithmeticError e)
  end.

(** [flash(message, category)] *)
Definition flash (message category : string) : M unit :=
  modify_world (add_flash message category).

(** ** The store *)

(** The key the store gives the next inserted row. *)
Definition next_key {A} (m : gmap Z A) : Z :=
  map_fold (fun k _ acc => Z.max k acc) 0 m + 1.

(** Whether a row other than [self] already carries [s] as its slug. *)
Definition slug_taken (self : option Z) (s : string)
    (ps : gmap Z Posts.t) : bool :=
  bool_decide
    (map_Exists (fun k p => Some k ≠ self ∧ Posts.slug p = s) ps).

Definition apply_op (tables : gmap Z Posts.t * gmap Z Contact.t)
    (op : DbOp) : option (gmap Z Posts.t * gmap Z Contact.t) :=
  let '(ps, cs) := tables in
  match op with
  | op_add_contact c => Some (ps, <[next_key cs := c]> cs)
  | op_add_post p =>
      if slug_taken None (Posts.slug p) ps then None
      else Some (<[next_key ps := p]> ps, cs)
  | op_update_post k p =>
      if slug_taken (Some k) (Posts.slug p) ps then None
      else Some (<[k := p]> ps, cs)
  | op_delete_post k => Some (delete k ps, cs)
  end.

Fixpoint flush (tables : gmap Z Posts.t * gmap Z Contact.t)
    (ops : list DbOp) : option (gmap Z Posts.t * gmap Z Contact.t) :=
  match ops with
  | [] => Some tables
  | op :: ops' =>
      match apply_op tables op with
      | Some tables' => flush tables' ops'
      | None => None
      end
  end.

Definition stage (op : DbOp) : M unit :=
  fun c => (inr tt, {| world := world c; uow := uow c ++ [op] |}).

(** [db.session.commit()]: the pending changes reach the tables together
    or, when a constraint rejects one of them, not at all. *)
Definition db_session_commit : M unit :=
  fun c =>
    let w := world c in
    match flush (posts w, contacts w) (uow c) with
    | Some (ps, cs) =>
        (inr tt, {| world := log_event ev_commit (set_tables ps cs w);
                    uow := [] |})
    | None =>
        (inl IntegrityError,
         {| world := log_event ev_rollback w; uow := [] |})
    end.

Definition select (table : string) : M World :=
  modify_world (log_event (ev_select table));; get_world.

Definition date_desc (a b : PostObj) : Prop :=
  Posts.date (snd b) ≤ Posts.date (snd a).
Definition date_asc (a b : PostObj) : Prop :=
  Posts.date (snd a) ≤ Posts.date (snd b).

Global Instance date_desc_dec : RelDecision date_desc.
Proof. intros a b. unfold date_desc. apply _. Defined.
Global Instance date_asc_dec : RelDecision date_asc.
Proof. intros a b. unfold date_asc. apply _. Defined.

(** [.offset(n)] and [.limit(n)] as SQLite reads them: a negative offset
    skips nothing, a negative limit does not bound the result. *)
Definition offset {A} (n : Z) (l : list A) : list A := drop (Z.to_nat n) l.
Definition limit {A} (n : Z) (l : list A) : list A :=
  if n <? 0 then l else take (Z.to_nat n) l.

(** [Posts.query.count()] *)
Definition posts_count : M Z :=
  w ← select "posts"; mret (Z.of_nat (size (posts w))).

(** [Posts.query.order_by(Posts.date.desc()).offset(o).limit(n).all()] *)
Definition posts_page (o n : Z) : M (list PostObj) :=
  w ← select "posts";
  mret (limit n (offset o (merge_sort date_desc (map_to_list (posts w))))).

(** [Posts.query.order_by(Posts.date.asc()).all()] *)
Definition posts_all_asc : M (list PostObj) :=
  w ← select "posts";
  mret (merge_sort date_asc (map_to_list (posts w))).

(** [Posts.query.filter(...).order_by(Posts.date.desc()).all()] *)
Definition posts_filter_desc (keep : Posts.t -> bool) : M (list PostObj) :=
  w ← select "posts";
  mret (merge_sort date_desc
          (filter (fun o => keep (snd o) = true) (map_to_list (posts w)))).

(** [Posts.query.filter_by(slug=s).first_or_404()] *)
Definition posts_by_slug_or_404 (s : string) : M PostObj :=
  w ← select "posts";
  match filter (fun o => Posts.slug (snd o) = s) (map_to_list (posts w)) with
  | o :: _ => mret o
  | [] => raise NotFound
  end.

(** [Posts.query.get_or_404(k)]; [None] is an identifier no key equals. *)
Definition posts_get_or_404 (k : option Z) : M PostObj :=
  w ← select "posts";
  match k ≫= fun k => pair k <$> posts w !! k with
  | Some o => mret o
  | None => raise NotFound
  end.

(** [mail.send_message(...)] against the request's transport. *)
Definition mail_send_message (error : option string) (m : MailMessage)
  : M unit :=
  modify_world (log_event (ev_mail m));;
  match error with
  | Some text => raise (MailError text)
  | None => mret tt
  end.

(** [app.logger.warning(text)] *)
Definition logger_warning (text : string) : M unit :=
  modify_world (log_event (ev_log_warning text)).

(** [file.save(path)] *)
Definition file_save (f : FileStorage) (path : string) : M unit :=
  modify_world (fun w => log_event (ev_file_save path)
                           (write_file path (stream f) w)).

(** ** The view functions *)

Module Views.
Section Views.

Variable params : Params.
(** The [type=int] conversion of a query argument, [None] when it
    raises [ValueError]. *)
Variable to_int : string -> option Z.
(** [werkzeug.utils.secure_filename] *)
Variable secure_filename : string -> string.
(** The integer key the store compares a textual identifier with,
    [None] when no key can equal it. *)
Variable pk_of_text : string -> option Z.

Definition is_admin_logged_in (sess : gmap string string) : bool :=
  bool_decide (sess !! "user" = Some (admin_username params)).

Definition form_get (req : Request) (key : string) : string :=
  default "" (form req !! key).

Definition nl : string := String "010"%char EmptyString.

Definition index (req : Request) : M Response :=
  let page := default 1 (args req !! "page" ≫= to_int) in
  let per_page := default 5 (no_of_posts params) in
  total ← posts_count;
  last_page ← arith (last_page_of total per_page);
  let page := Z.min (Z.max 1 page) last_page in
  posts ← posts_page ((page - 1) * per_page) per_page;
  let prev_url :=
    if 1 <? page then Some (url_for_page "index" (page - 1)) else None in
  let next_url :=
    if page <? last_page then Some (url_for_page "index" (page + 1))
    else None in
  mret (render_template
          (index_html posts prev_url next_url page last_page total) 200).

Definition post (post_slug : string) : M Response :=
  post_obj ← posts_by_slug_or_404 post_slug;
  mret (render_template (post_html post_obj) 200).

Definition about : M Response := mret (render_template about_html 200).

Definition contact (req : Request) : M Response :=
  match method req with
  | POST =>
      let name := strip (form_get req "name") in
      let email := strip (form_get req "email") in
      let phone_no := strip (form_get req "phone") in
      let msg := strip (form_get req "msg") in
      let entry := Contact.mk name email phone_no msg (now req) in
      stage (op_add_contact entry);;
      db_session_commit;;
      try_except
        (if negb (bool_decide (gmail_user params = ""))
            && negb (bool_decide (gmail_pass params = ""))
         then
           mail_send_message (smtp_error req)
             {| subject := "New Message from " +:+ name;
                sender := if bool_decide (email = "")
                          then gmail_user params else email;
                recipients := [gmail_user params];
                body := "Name: " +:+ name +:+ nl +:+ "Email: " +:+ email
                        +:+ nl +:+ "Phone: " +:+ phone_no +:+ nl +:+ nl
                        +:+ "Message:" +:+ nl +:+ msg |}
         else mret tt)
        (fun e => logger_warning ("Mail send failed: " +:+ exc_text e));;
      flash "Thanks! Your message has been sent." "success";;
      mret (redirect (url_for "contact"))
  | GET => mret (render_template contact_html 200)
  end.

Definition login (req : Request) : M Response :=
  match method req with
  | POST =>
      let username := form_get req "username" in
      let password := form_get req "password" in
      if bool_decide (username = admin_username params)
         && bool_decide (password = admin_password params)
      then
        modify_world
          (fun w => set_session (<["user" := username]> (session w)) w);;
        mret (redirect (url_for "dashboard"))
      else
        flash "Invalid username or password" "error";;
        mret (render_template login_html 200)
  | GET => mret (render_template login_html 200)
  end.

Definition logout : M Response :=
  modify_world (fun w => set_session (base.delete "user" (session w)) w);;
  flash "Logged out." "info";;
  mret (redirect (url_for "login")).

Definition dashboard : M Response :=
  w ← get_world;
  if negb (is_admin_logged_in (session w))
  then mret (redirect (url_for "login"))
  else
    posts ← posts_all_asc;
    mret (render_template (dashboard_html posts) 200).

Definition edit (req : Request) (sr_no : string) : M Response :=
  w ← get_world;
  if negb (is_admin_logged_in (session w))
  then mret (redirect (url_for "login"))
  else
    post ← (if bool_decide (sr_no = "0") then mret None
            else o ← posts_get_or_404 (pk_of_text sr_no); mret (Some o));
    match method req with
    | POST =>
        let title := strip (form_get req "title") in
        let slug := strip (form_get req "slug") in
        let content := strip (form_get req "content") in
        let tagline := strip (form_get req "tagline") in
        let img_file := strip (form_get req "img_file") in
        (if bool_decide (sr_no = "0") then
           stage (op_add_post
                    (Posts.mk title slug content tagline (now req)
                              (Some img_file)))
         else
           match post with
           | Some (k, old) =>
               stage (op_update_post k
                        (Posts.mk title slug content tagline
                                  (Posts.date old) (Some img_file)))
           | None => raise AttributeError
           end);;
        db_session_commit;;
        flash "Post saved successfully!" "success";;
        mret (redirect (url_for "dashboard"))
    | GET => mret (render_template (edit_html post) 200)
    end.

Definition delete (sr_no : Z) : M Response :=
  w ← get_world;
  if negb (is_admin_logged_in (session w))
  then mret (redirect (url_for "login"))
  else
    post ← posts_get_or_404 (Some sr_no);
    stage (op_delete_post (fst post));;
    db_session_commit;;
    flash "Post deleted successfully!" "info";;
    mret (redirect (url_for "dashboard")).

(** [not file or file.filename == ""] *)
Definition no_file_selected (file : option FileStorage) : bool :=
  match file with
  | None => true
  | Some f => bool_decide (filename f = "")
  end.

Definition upload (req : Request) : M Response :=
  w ← get_world;
  if negb (is_admin_logged_in (session w))
  then mret (redirect (url_for "login"))
  else
    match method req with
    | POST =>
        match files req !! "file1" with
        | Some file =>
            if no_file_selected (Some file) then
              flash "No file selected." "error";;
              mret (redirect (request_url (route req)))
            else if negb (allowed_file (filename file)) then
              flash "Invalid file type." "error";;
              mret (redirect (request_url (route req)))
            else
              let fname := secure_filename (filename file) in
              let save_path := os_path_join (UPLOAD_FOLDER params) fname in
              file_save file save_path;;
              flash "Uploaded successfully." "success";;
              mret (redirect (url_for "dashboard"))
        | None =>
            flash "No file selected." "error";;
            mret (redirect (request_url (route req)))
        end
    | GET => mret (render_template upload_form 200)
    end.

Definition search (req : Request) : M Response :=
  let q := strip (default "" (args req !! "q")) in
  results ← (if bool_decide (q = "") then mret []
             else
               let like := "%" +:+ q +:+ "%" in
               posts_filter_desc
                 (fun p => ilike (Posts.title p) like
                           || ilike (Posts.tagline p) like
                           || ilike (Posts.content p) like));
  mret (render_template (search_html q results) 200).

Definition view_function (req : Request) : M Response :=
  match route req with
  | r_index => index req
  | r_post post_slug => post post_slug
  | r_about => about
  | r_contact => contact req
  | r_login => login req
  | r_logout => logout
  | r_dashboard => dashboard
  | r_edit sr_no => edit req sr_no
  | r_delete sr_no => delete sr_no
  | r_upload => upload req
  | r_search => search req
  end.

(** One request: routing by method, the view function on a fresh
    database session, and the two registered error handlers. *)
Definition full_dispatch_request (req : Request) (w : World)
  : Response * World :=
  if bool_decide (method req ∈ route_methods (route req)) then
    match view_function req {| world := w; uow := [] |} with
    | (inr response, c) => (response, world c)
    | (inl NotFound, c) => (render_template not_found_html 404, world c)
    | (inl _, c) => (render_template server_error_html 500, world c)
    end
  else (method_not_allowed, w).

End Views.
End Views.

(** ** Notions the properties are stated with *)

(** The routes the administrator alone may use. *)
Definition admin_only (r : Route) : bool :=
  match r with
  | r_dashboard | r_edit _ | r_delete _ | r_upload => true
  | _ => false
  end.

(** [q] occurs in [s] when the case of ASCII letters is ignored. *)
Definition ci_substring (q s : string) : Prop :=
  ∃ a b, sql_lower s = a +:+ sql_lower q +:+ b.


(** The part of [name] after its last dot is an allowed extension. *)
Definition has_allowed_extension (name : string) : Prop :=
  ∃ stem ext, name = stem +:+ "." +:+ ext ∧ contains "." ext = false
              ∧ py_lower ext ∈ ALLOWED_EXTENSIONS.

Fixpoint all_space (s : string) : bool :=
  match s with
  | EmptyString => true
  | String c s' => py_isspace c && all_space s'
  end.

Definition first_char (s : string) : option ascii :=
  match s with EmptyString => None | String c _ => Some c end.

Fixpoint last_char (s : string) : option ascii :=
  match s with
  | EmptyString => None
  | String c EmptyString => Some c
  | String _ s' => last_char s'
  end.

(** [s] neither starts nor ends with white space. *)
Definition trimmed (s : string) : Prop :=
  (∀ c, first_char s = Some c → py_isspace c = false) ∧
  (∀ c, last_char s = Some c → py_isspace c = false).

(** What one request may do to the two tables: nothing, or one insert,
    one update or one delete that the constraints admit. *)
Inductive table_step (ps : gmap Z Posts.t) (cs : gmap Z Contact.t)
  : gmap Z Posts.t → gmap Z Contact.t → Prop :=
| step_none : table_step ps cs ps cs
| step_add_contact c : table_step ps cs ps (<[next_key cs := c]> cs)
| step_add_post p :
    slug_taken None (Posts.slug p) ps = false →
    table_step ps cs (<[next_key ps := p]> ps) cs
| step_update_post k old p :
    ps !! k = Some old → Posts.date p = Posts.date old →
    slug_taken (Some k) (Posts.slug p) ps = false →
    table_step ps cs (<[k := p]> ps) cs
| step_delete_post k old :
    ps !! k = Some old → table_step ps cs (base.delete k ps) cs.

(** No two rows carry the same slug. *)
Definition unique_slugs (ps : gmap Z Posts.t) : Prop :=
  ∀ k1 k2 p1 p2,
    ps !! k1 = Some p1 → ps !! k2 = Some p2 →
    Posts.slug p1 = Posts.slug p2 → k1 = k2.

(** ** Sample data *)

(** [int()] on a plain run of decimal digits. *)
Fixpoint digits_value (acc : Z) (s : string) : option Z :=
  match s with
  | EmptyString => Some acc
  | String c s' =>
      match Ascii.is_nat c with
      | Some d => digits_value (10 * acc + Z.of_nat d) s'
      | None => None
      end
  end.

Definition decimal (s : string) : option Z :=
  match s with
  | EmptyString => None
  | _ => digits_value 0 s
  end.

Definition demo_params : Params :=
  {| admin_username := "admin"; admin_password := "s3cret";
     gmail_user := "blog@example.org"; gmail_pass := "app-password";
     no_of_posts := Some 2; upload_folder := None |}.

Definition demo_posts : gmap Z Posts.t :=
  <[1 := Posts.mk "Hello" "hello" "First post" "intro" 10 None]>
    (<[2 := Posts.mk "Flask tips" "flask-tips" "Use blueprints" "howto" 20
                     (Some "tips.png")]>
       (<[3 := Posts.mk "Third" "third" "a b" "misc" 30 None]> ∅)).

Definition demo_world : World :=
  {| posts := demo_posts; contacts := ∅; uploaded := ∅; session := ∅;
     flashes := []; journal := [] |}.

Definition demo_admin_world : World :=
  set_session {["user" := "admin"]} demo_world.

Definition demo_request (r : Route) (m : Method)
    (a f : gmap string string) : Request :=
  {| route := r; method := m; args := a; form := f; files := ∅;
     now := 1700000000; smtp_error := Some "connection refused" |}.


Definition demo_serve : Request -> World -> Response * World :=
  Views.full_dispatch_request demo_params decimal (fun name => name) decimal.

(** Twelve posts, the [i]-th created at time [i], listed five per page. *)
Definition twelve_posts_world : World :=
  {| posts := list_to_map
                ((fun i =>
                    (i, Posts.mk "Post"
                          (String (Ascii.ascii_of_N (Z.to_N (96 + i)))
                                  EmptyString)
                          "" "" i None))
                   <$> seqZ 1 12);
     contacts := ∅; uploaded := ∅; session := ∅;
     flashes := []; journal := [] |}.

Definition five_per_page : Params :=
  {| admin_username := "admin"; admin_password := "s3cret";
     gmail_user := ""; gmail_pass := "";
     no_of_posts := Some 5; upload_folder := None |}.

(** What a rendered listing shows: the keys of its posts, the two links,
    the page served and the last page. *)
Definition listing_of (r : Response)
  : option (list Z * option Url * option Url * Z * Z) :=
  match r with
  | render_template (index_html ps prev next page last_page _) _ =>
      Some (fst <$> ps, prev, next, page, last_page)
  | _ => None
  end.

Definition list_page (page : string) : Response :=
  fst (Views.full_dispatch_request five_per_page decimal (fun name => name)
         decimal (demo_request r_index GET {["page" := page]} ∅)
         twelve_posts_world).

(** A create submission with a slug of its own. *)
Definition demo_create : Request :=
  demo_request (r_edit "0") POST ∅
    {["title" := " Fresh "; "slug" := " fresh "; "content" := "text"]}.

(** * Properties *)

(** ** True division and the ceiling *)

Section TrueDivision.

Lemma bit_length_bounds n :
  0 < n -> 2 ^ (bit_length n - 1) <= n < 2 ^ bit_length n.
Proof.
  intros Hn. unfold bit_length.
  destruct (Z.eqb_spec n 0) as [->|_]; [lia|].
  rewrite Z.abs_eq by lia.
  replace (Z.log2 n + 1 - 1) with (Z.log2 n) by lia.
  replace (Z.log2 n + 1) with (Z.succ (Z.log2 n)) by lia.
  apply Z.log2_spec; lia.
Qed.

Lemma bit_length_nonneg n : 0 <= bit_length n.
Proof.
  unfold bit_length. destruct (n =? 0); [lia|].
  pose proof (Z.log2_nonneg (Z.abs n)). lia.
Qed.

Lemma bit_length_le_of_lt n e : 0 <= e -> 0 <= n < 2 ^ e -> bit_length n <= e.
Proof.
  intros He [Hn Hlt].
  destruct (Z.eq_dec n 0) as [->|Hne]; [unfold bit_length; simpl; lia|].
  destruct (Z_lt_le_dec e (bit_length n)) as [Hgt|]; [|lia].
  exfalso.
  pose proof (bit_length_bounds n ltac:(lia)) as [Hlo _].
  assert (2 ^ e <= 2 ^ (bit_length n - 1)) by (apply Z.pow_le_mono_r; lia).
  lia.
Qed.

Lemma bit_length_ge_of_le n e : 0 <= e -> 2 ^ e <= n -> e + 1 <= bit_length n.
Proof.
  intros He Hle.
  assert (0 < n) by (pose proof (Z.pow_pos_nonneg 2 e); lia).
  pose proof (bit_length_bounds n ltac:(lia)) as [_ Hhi].
  destruct (Z_lt_le_dec e (bit_length n)) as [|Hgt]; [lia|].
  exfalso.
  assert (2 ^ bit_length n <= 2 ^ e)
    by (apply Z.pow_le_mono_r; [lia|lia]).
  lia.
Qed.

(** A divisor of a power of two that is larger than one is even. *)
Lemma divisor_of_pow2_even (s : nat) p h :
  1 < p -> p * h = 2 ^ Z.of_nat s -> Z.even p = true.
Proof.
  intros Hp. revert h. induction s as [|s IH]; intros h Hh.
  - simpl in Hh. assert (0 < h) by nia. nia.
  - destruct (Z.even p) eqn:Hev; [reflexivity|].
    rewrite Nat2Z.inj_succ, Z.pow_succ_r in Hh by lia.
    assert (Hprod : Z.even (p * h) = true)
      by (rewrite Hh, Z.even_mul; reflexivity).
    rewrite Z.even_mul, Hev in Hprod. simpl in Hprod.
    apply Z.even_spec in Hprod as [h' ->].
    apply (IH h'). lia.
Qed.

Lemma round_half_even_cases x inexact e :
  round_half_even x inexact e = x / 2 ^ e * 2 ^ e \/
  round_half_even x inexact e = (x / 2 ^ e + 1) * 2 ^ e.
Proof.
  unfold round_half_even.
  destruct (_ || _); [right|left]; reflexivity.
Qed.

Lemma round_half_even_exact x inexact e :
  1 <= e -> x mod 2 ^ e = 0 -> round_half_even x inexact e = x.
Proof.
  intros He Hx. unfold round_half_even. rewrite Hx.
  assert (0 < 2 ^ (e - 1)) by (apply Z.pow_pos_nonneg; lia).
  destruct (Z.ltb_spec (2 ^ (e - 1)) 0); [lia|].
  destruct (Z.eqb_spec 0 (2 ^ (e - 1))); [lia|]. simpl.
  pose proof (Z.div_mod x (2 ^ e)) as Hdm.
  assert (0 < 2 ^ e) by (apply Z.pow_pos_nonneg; lia).
  rewrite Hx in Hdm. lia.
Qed.

Lemma round_half_even_up x e :
  2 ^ (e - 1) < x mod 2 ^ e \/ x mod 2 ^ e = 2 ^ (e - 1) ->
  round_half_even x true e = (x / 2 ^ e + 1) * 2 ^ e.
Proof.
  intros Hx. unfold round_half_even.
  destruct (Z.ltb_spec (2 ^ (e - 1)) (x mod 2 ^ e)); [reflexivity|].
  destruct (Z.eqb_spec (x mod 2 ^ e) (2 ^ (e - 1))); [reflexivity|lia].
Qed.

Lemma round_half_even_above x inexact e :
  2 ^ (e - 1) < x mod 2 ^ e ->
  round_half_even x inexact e = (x / 2 ^ e + 1) * 2 ^ e.
Proof.
  intros Hx. unfold round_half_even.
  destruct (Z.ltb_spec (2 ^ (e - 1)) (x mod 2 ^ e)); [reflexivity|lia].
Qed.

Lemma ceil_div_cases t p :
  0 < p ->
  (t mod p = 0 /\ ceil_div t p = t / p) \/
  (0 < t mod p /\ ceil_div t p = t / p + 1).
Proof.
  intros Hp. unfold ceil_div.
  pose proof (Z.div_mod t p ltac:(lia)) as Ht.
  pose proof (Z.mod_pos_bound t p Hp) as Hr.
  destruct (Z.eq_dec (t mod p) 0) as [H0|Hn0]; [left|right]; split;
    try lia.
  - replace (- t) with ((- (t / p)) * p) by lia.
    rewrite Z.div_mul by lia. lia.
  - replace (- t) with ((- (t / p) - 1) * p + (p - t mod p)) by lia.
    rewrite Z.div_add_l by lia.
    rewrite (Z.div_small (p - t mod p)) by lia. lia.
Qed.

Lemma scaled_quotient_split P S k r :
  0 < P -> (P * k + r) * S / P = k * S + r * S / P /\
           ((P * k + r) * S) mod P = (r * S) mod P.
Proof.
  intros HP.
  replace ((P * k + r) * S) with (r * S + (k * S) * P) by ring.
  split.
  - rewrite Z.div_add by lia. ring.
  - apply Z.mod_add. lia.
Qed.

Lemma quotient_window U V k y :
  0 < U -> 0 <= y < V * U ->
  (k * V * U + y) / U = k * V + y / U /\
  (k * V * U + y) mod U = y mod U /\
  0 <= y / U /\ y / U + 1 <= V.
Proof.
  intros HU [Hy0 Hy].
  replace (k * V * U + y) with (y + (k * V) * U) by ring.
  rewrite Z.div_add, Z.mod_add by lia.
  assert (y / U < V) by (apply Z.div_lt_upper_bound; lia).
  assert (0 <= y / U) by (apply Z.div_pos; lia).
  repeat split; lia.
Qed.

Lemma ceil_in_window S k n :
  0 < S -> k * S < n <= (k + 1) * S -> - (- n / S) = k + 1.
Proof.
  intros HS Hn.
  replace (- n) with ((k + 1) * S - n + (- (k + 1)) * S) by ring.
  rewrite Z.div_add by lia.
  rewrite Z.div_small by lia. lia.
Qed.

(** The three facts the tie case rests on. *)
Lemma half_unit_below_remainder H P S c k r y rho T x :
  0 < H -> 0 < P -> 0 < S -> 0 < c -> 0 < r ->
  T = P * k + r -> T <= c -> x = k * S + y ->
  r * S = P * y + rho -> 0 <= rho < P ->
  H * c <= x ->
  H <= y /\ (y = H -> rho = 0 -> r = 1 /\ P * H = S /\ T = c).
Proof.
  intros HH HP HS Hc Hr HT HTc Hx Hy Hrho Hbig.
  assert (HxP : x * P <= T * S) by (subst x T; nia).
  assert (HHP : H * P <= S).
  { assert (H * c * P <= c * S) by nia.
    apply (Z.mul_le_mono_pos_l _ _ c); [lia|]. lia. }
  assert (HSr : S <= r * S) by nia.
  split.
  - assert (H * P < (y + 1) * P) by lia.
    apply Z.mul_lt_mono_pos_r in H0; lia.
  - intros -> ->.
    assert (HS1 : S = P * H) by lia.
    assert (Hr1 : r = 1).
    { assert (r * S = 1 * S) by lia.
      apply Z.mul_cancel_r in H0; lia. }
    repeat split; [exact Hr1|lia|].
    subst r x. rewrite HS1 in *.
    assert (HP1 : (P * k + 1) * (P * H) <= c * (P * H)) by nia.
    assert (H * c * P <= T * (P * H)) by (subst T; nia).
    assert (T * (P * H) = c * (P * H)) by (subst T; nia).
    apply Z.mul_cancel_r in H1; [exact H1|nia].
Qed.

Lemma rounded_quotient_ceil T P s e :
  1 <= P -> 0 < T <= 2 ^ 53 -> 1 <= e <= s ->
  (P <= T -> 2 ^ (e - 1) * 2 ^ 53 <= T * 2 ^ s / P) ->
  let m := round_half_even (T * 2 ^ s / P)
                           (negb (T * 2 ^ s mod P =? 0)) e in
  0 <= m <= (T / P + 1) * 2 ^ s /\
  Z.max 1 (- (- m / 2 ^ s)) = Z.max 1 (ceil_div T P).
Proof.
  intros HP HT He Hbig.
  (* the powers of two involved *)
  assert (HH : 0 < 2 ^ (e - 1)) by (apply Z.pow_pos_nonneg; lia).
  assert (HV : 0 < 2 ^ (s - e)) by (apply Z.pow_pos_nonneg; lia).
  assert (HU : 2 ^ e = 2 * 2 ^ (e - 1)).
  { rewrite <- Z.pow_succ_r by lia. f_equal. lia. }
  assert (HS : 2 ^ s = 2 ^ (s - e) * 2 ^ e).
  { rewrite <- Z.pow_add_r by lia. f_equal. lia. }
  assert (Hc : 0 < 2 ^ 53) by reflexivity.
  remember (2 ^ 53) as c eqn:Ec.
  remember (2 ^ (e - 1)) as H eqn:EH.
  remember (2 ^ (s - e)) as V eqn:EV.
  remember (2 ^ e) as U eqn:EU.
  remember (2 ^ s) as S eqn:ES.
  assert (HUpos : 0 < U) by lia.
  assert (HSpos : 0 < S) by (rewrite HS; apply Z.mul_pos_pos; lia).
  (* T = P * k + r, and the scaled quotient is k * S + y *)
  pose proof (Z.div_mod T P ltac:(lia)) as HTdm.
  pose proof (Z.mod_pos_bound T P ltac:(lia)) as Hr.
  remember (T / P) as k eqn:Ek. remember (T mod P) as r eqn:Er.
  assert (Hk : 0 <= k) by (subst k; apply Z.div_pos; lia).
  destruct (scaled_quotient_split P S k r ltac:(lia)) as [Hx Hrho].
  rewrite <- HTdm in Hx, Hrho.
  pose proof (Z.div_mod (r * S) P ltac:(lia)) as Hydm.
  pose proof (Z.mod_pos_bound (r * S) P ltac:(lia)) as Hrhob.
  rewrite Hrho. remember ((r * S) mod P) as rho eqn:Erho.
  remember (r * S / P) as y eqn:Ey.
  assert (Hy0 : 0 <= y) by (subst y; apply Z.div_pos; nia).
  assert (HyS : y < V * U).
  { rewrite <- HS. subst y. apply Z.div_lt_upper_bound; [lia|].
    apply (proj1 (Z.mul_lt_mono_pos_r S r P HSpos)). lia. }
  assert (HkS : k * S = k * V * U) by (rewrite HS; ring).
  destruct (quotient_window U V k y HUpos (conj Hy0 HyS))
    as (Hq & Hrem & Hq0 & HqV).
  rewrite Hx in *. clear Hx. rewrite HkS in *.
  pose proof (Z.div_mod y U ltac:(lia)) as Hqdm.
  pose proof (Z.mod_pos_bound y U HUpos) as Htb.
  remember (y / U) as q eqn:Eq. remember (y mod U) as t eqn:Et.
  intros m.
  assert (Hm : k * V * U + q * U <= m <= k * V * U + (q + 1) * U).
  { subst m.
    destruct (round_half_even_cases (k * V * U + y) (negb (rho =? 0)) e)
      as [-> | ->]; rewrite <- EU, Hq; lia. }
  assert (HqU : 0 <= q * U) by (apply Z.mul_nonneg_nonneg; lia).
  assert (HqVU : (q + 1) * U <= V * U)
    by (apply Z.mul_le_mono_nonneg_r; lia).
  assert (HkVU : 0 <= k * V * U)
    by (repeat apply Z.mul_nonneg_nonneg; lia).
  replace ((k + 1) * S) with (k * V * U + V * U) by (rewrite HS; ring).
  split; [lia|].
  destruct (ceil_div_cases T P ltac:(lia)) as [[Hr0 Hc']|[Hrpos Hc']];
    rewrite Hc', <- Ek; rewrite <- Er in *.
  - (* P divides T: the quotient is exact and rounding keeps it *)
    assert (Hy : y = 0)
      by (rewrite Ey, Hr0, Z.mul_0_l; apply Z.div_0_l; lia).
    assert (Hmx : m = k * V * U + y).
    { subst m. apply round_half_even_exact; [lia|].
      rewrite <- EU, Hrem, Et, Hy. apply Z.mod_0_l. lia. }
    rewrite Hmx, Hy, Z.add_0_r.
    replace (- (k * V * U)) with ((- k) * S) by (rewrite HS; ring).
    rewrite Z.div_mul by lia. lia.
  - (* P does not divide T *)
    destruct (Z.eq_dec k 0) as [Hk0|Hk0].
    + (* T < P: the float lies in [0, 1] *)
      destruct (Z.eq_dec m 0) as [Hm0|Hm0].
      * rewrite Hm0, Z.div_0_l by lia. lia.
      * rewrite (ceil_in_window S k m) by (rewrite HS; subst k; lia). lia.
    + (* P < T: the float lies strictly above k *)
      rewrite (ceil_in_window S k m); [reflexivity|exact HSpos|].
      replace ((k + 1) * S) with (k * V * U + V * U) by (rewrite HS; ring).
      rewrite HkS. split; [|lia].
      assert (HPT : P <= T).
      { rewrite HTdm.
        assert (P * 1 <= P * k) by (apply Z.mul_le_mono_nonneg_l; lia).
        lia. }
      specialize (Hbig HPT).
      destruct (half_unit_below_remainder H P S c k r y rho T
                  (k * V * U + y) HH ltac:(lia) HSpos Hc Hrpos HTdm
                  ltac:(lia) ltac:(lia) Hydm Hrhob Hbig) as [HHy Htie].
      destruct (Z.eq_dec q 0) as [Hq00|Hq00].
      * assert (Hty : t = y) by lia.
        destruct (Z.eq_dec y H) as [Heq|Hne].
        -- (* a tie: the quotient was inexact, so it rounds up *)
           assert (Hinexact : rho <> 0).
           { intros Hrho0.
             destruct (Htie Heq Hrho0) as (Hr1 & HPH & HT53).
             assert (Hev : Z.even P = true).
             { apply (divisor_of_pow2_even (Z.to_nat s) P H); [lia|].
               rewrite Z2Nat.id by lia. lia. }
             assert (HoddT : Z.even T = false).
             { rewrite HTdm, Hr1, Z.even_add, Z.even_mul, Hev.
               reflexivity. }
             rewrite HT53, Ec in HoddT. discriminate HoddT. }
           subst m. apply Z.eqb_neq in Hinexact. rewrite Hinexact. cbn [negb].
           rewrite round_half_even_up
             by (rewrite <- EU, <- EH, Hrem; lia).
           rewrite <- EU, Hq. lia.
        -- subst m.
           rewrite round_half_even_above
             by (rewrite <- EU, <- EH, Hrem; lia).
           rewrite <- EU, Hq. lia.
      * assert (U * 1 <= U * q) by (apply Z.mul_le_mono_nonneg_l; lia).
        lia.
Qed.

Lemma bit_length_mono a b : 0 < a <= b -> bit_length a <= bit_length b.
Proof.
  intros Hab.
  pose proof (bit_length_bounds a ltac:(lia)) as [Ha _].
  pose proof (bit_length_nonneg a).
  destruct (Z.eq_dec (bit_length a) 0) as [H0|H0]; [rewrite H0; apply bit_length_nonneg|].
  pose proof (bit_length_ge_of_le b (bit_length a - 1) ltac:(lia) ltac:(lia)).
  lia.
Qed.

Lemma true_divide_ceil_lt T P :
  1 <= P -> 0 < T <= 2 ^ 53 -> T < 2 ^ 53 * P ->
  exists f, long_true_divide T P = inr f /\
            Z.max 1 (math_ceil f) = Z.max 1 (ceil_div T P).
Proof.
  intros HP HT HTP.
  pose proof (bit_length_bounds T ltac:(lia)) as HbT.
  pose proof (bit_length_bounds P ltac:(lia)) as HbP.
  assert (HbT54 : bit_length T <= 54)
    by (apply bit_length_le_of_lt; lia).
  assert (HbP1 : 1 <= bit_length P)
    by (apply (bit_length_ge_of_le P 0); simpl; lia).
  assert (HbT1 : 1 <= bit_length T)
    by (apply (bit_length_ge_of_le T 0); simpl; lia).
  unfold long_true_divide.
  destruct (Z.eqb_spec P 0); [lia|].
  destruct (Z.eqb_spec T 0); [lia|].
  destruct (Z.ltb_spec T 0); [lia|].
  destruct (Z.ltb_spec P 0); [lia|].
  rewrite !Z.abs_eq by lia. cbn [xorb].
  unfold DBL_MAX_EXP, DBL_MIN_EXP, DBL_MANT_DIG.
  remember (bit_length T) as bT eqn:EbT.
  remember (bit_length P) as bP eqn:EbP.
  destruct (Z.ltb_spec 1024 (bT - bP)); [lia|].
  destruct (Z.ltb_spec (bT - bP) (-1021 - 53 - 1)) as [Hunder|Hnorm].
  { (* the quotient underflows to zero; its ceiling is lifted to 1 *)
    eexists. split; [reflexivity|].
    assert (HltP : T < P).
    { assert (2 ^ bT <= 2 ^ (bP - 1)) by (apply Z.pow_le_mono_r; lia). lia. }
    destruct (ceil_div_cases T P ltac:(lia)) as [[Hr0 _]|[_ ->]].
    - rewrite Z.mod_small in Hr0 by lia. lia.
    - rewrite Z.div_small by lia. reflexivity. }
  remember (Z.max (bT - bP) (-1021) - 53 - 2) as shift eqn:Eshift.
  assert (Hshift : shift <= -2) by lia.
  destruct (Z.leb_spec shift 0); [|lia].
  remember (- shift) as s eqn:Es.
  remember (T * 2 ^ s / P) as x eqn:Ex.
  assert (HSpos : 0 < 2 ^ s) by (apply Z.pow_pos_nonneg; lia).
  assert (Hx0 : 0 <= x) by (subst x; apply Z.div_pos; nia).
  assert (Hxhi : x < 2 ^ (s + 53)).
  { subst x. apply Z.div_lt_upper_bound; [lia|].
    rewrite Z.pow_add_r by lia. nia. }
  assert (Hbx : bit_length x <= s + 53)
    by (apply bit_length_le_of_lt; lia).
  pose proof (bit_length_nonneg x) as Hbx0.
  assert (Hxlo : -1021 < bT - bP -> 2 ^ 54 <= x).
  { intros Hd. subst x. apply Z.div_le_lower_bound; [lia|].
    assert (Hs : s = 55 - bT + bP) by lia.
    assert (Hpow : 2 ^ (bT - 1) * 2 ^ s = 2 ^ 54 * 2 ^ bP).
    { rewrite <- !Z.pow_add_r by lia. f_equal. lia. }
    nia. }
  remember (Z.max (bit_length x) (-1021 - shift) - 53) as e eqn:Ee.
  assert (He : 1 <= e <= s).
  { split; [|lia].
    destruct (Z_le_gt_dec (bT - bP) (-1021)) as [Hd|Hd]; [lia|].
    pose proof (bit_length_ge_of_le x 54 ltac:(lia) (Hxlo ltac:(lia))).
    lia. }
  assert (Hbig : P <= T -> 2 ^ (e - 1) * 2 ^ 53 <= x).
  { intros HPT.
    assert (bP <= bT) by (subst bP bT; apply bit_length_mono; lia).
    specialize (Hxlo ltac:(lia)).
    pose proof (bit_length_ge_of_le x 54 ltac:(lia) Hxlo).
    pose proof (bit_length_bounds x ltac:(lia)) as [Hlo _].
    rewrite <- Z.pow_add_r by lia.
    replace (e - 1 + 53) with (bit_length x - 1) by lia.
    exact Hlo. }
  pose proof (rounded_quotient_ceil T P s e HP HT He) as Hcore.
  rewrite <- Ex in Hcore. specialize (Hcore Hbig).
  cbv zeta in Hcore. destruct Hcore as [Hm Hceil].
  remember (round_half_even x (negb (T * 2 ^ s mod P =? 0)) e) as m eqn:Em.
  assert (Hbm : bit_length m <= 54 + s).
  { apply bit_length_le_of_lt; [lia|]. split; [lia|].
    assert (HkT : T / P <= T).
    { apply Z.div_le_upper_bound; [lia|].
      assert (1 * T <= P * T) by (apply Z.mul_le_mono_nonneg_r; lia).
      lia. }
    rewrite Z.pow_add_r by lia.
    assert (E54 : 2 ^ 54 = 2 * 2 ^ 53) by reflexivity. rewrite E54.
    assert ((T / P + 1) * 2 ^ s <= (2 ^ 53 + 1) * 2 ^ s)
      by (apply Z.mul_le_mono_nonneg_r; lia).
    lia. }
  destruct (Z.ltb_spec 1024 (shift + bit_length m)); [lia|].
  eexists. split; [reflexivity|].
  unfold math_ceil. cbn [mant expo].
  destruct (Z.leb_spec 0 shift); [lia|].
  rewrite <- Es. exact Hceil.
Qed.

(** For totals a double represents exactly, the float detour of
    [max(1, math.ceil(total / per_page))] is the integer ceiling. *)
Lemma true_divide_ceil T P :
  1 <= P -> 0 <= T <= 2 ^ 53 ->
  exists f, long_true_divide T P = inr f /\
            Z.max 1 (math_ceil f) = Z.max 1 (ceil_div T P).
Proof.
  intros HP HT.
  destruct (Z.eq_dec T 0) as [->|HT0].
  { exists (Finite 0 0). unfold long_true_divide.
    destruct (Z.eqb_spec P 0); [lia|]. split; reflexivity. }
  destruct (Z.eq_dec P 1) as [->|HP1].
  { destruct (Z.eq_dec T (2 ^ 53)) as [->|HT53].
    - eexists. split; vm_compute; reflexivity.
    - apply (true_divide_ceil_lt T 1); lia. }
  apply true_divide_ceil_lt; lia.
Qed.

End TrueDivision.

(** ** Text *)

Section TextLemmas.


Lemma app_String c a b : String c a +:+ b = String c (a +:+ b).
Proof. reflexivity. Qed.

Lemma app_empty_l a : "" +:+ a = a.
Proof. reflexivity. Qed.












Lemma contains_app c a b : contains c (a +:+ b) = contains c a || contains c b.
Proof.
  induction a as [|d a IH]; [done|].
  rewrite app_String. cbn [contains]. by rewrite IH, orb_assoc.
Qed.

Lemma rpartition_None c s : rpartition c s = None ↔ contains c s = false.
Proof.
  induction s as [|d s IH]; [done|]. cbn [rpartition contains].
  rewrite orb_false_iff, <- IH.
  destruct (rpartition c s) as [[h t]|].
  - split; [done|]. by intros [_ ?].
  - destruct (Ascii.eqb c d); split; try done. by intros [? _].
Qed.

Lemma contains_after c h t : contains c (h +:+ String c t) = true.
Proof.
  rewrite contains_app. cbn [contains].
  by rewrite Ascii.eqb_refl, orb_true_r.
Qed.

Lemma rpartition_Some c s h t :
  rpartition c s = Some (h, t) ↔
  s = h +:+ String c t ∧ contains c t = false.
Proof.
  revert h t. induction s as [|d s IH]; intros h t.
  - split; [done|]. intros [Hs _]. by destruct h.
  - cbn [rpartition].
    destruct (rpartition c s) as [[h' t']|] eqn:Hrec.
    + destruct (proj1 (IH h' t') eq_refl) as [Hs' Ht'].
      split.
      * intros [= <- <-]. by rewrite Hs'.
      * intros [Hs Ht]. destruct h as [|e h].
        -- rewrite app_empty_l in Hs. injection Hs as _ <-.
           rewrite Hs', contains_after in Ht. done.
        -- rewrite app_String in Hs. injection Hs as -> Hs.
           by pose proof (proj2 (IH h t) (conj Hs Ht)) as [= -> ->].
    + apply rpartition_None in Hrec.
      destruct (Ascii.eqb_spec c d) as [<-|Hne].
      * split.
        -- by intros [= <- <-].
        -- intros [Hs Ht]. destruct h as [|e h].
           ++ rewrite app_empty_l in Hs. by injection Hs as ->.
           ++ rewrite app_String in Hs. injection Hs as _ ->.
              rewrite contains_after in Hrec. done.
      * split; [done|]. intros [Hs Ht]. destruct h as [|e h].
        -- rewrite app_empty_l in Hs. by injection Hs as ->.
        -- rewrite app_String in Hs. injection Hs as _ ->.
           rewrite contains_after in Hrec. done.
Qed.

(** [allowed_file] accepts exactly the names whose part after the last
    dot is, in lower case, one of the five image extensions. *)
Lemma allowed_file_spec name :
  allowed_file name = true ↔ has_allowed_extension name.
Proof.
  unfold allowed_file, has_allowed_extension, rsplit1.
  destruct (rpartition "." name) as [[h t]|] eqn:Hpart.
  - apply rpartition_Some in Hpart as [-> Ht].
    rewrite contains_after. cbn [orb andb lookup list_lookup].
    rewrite bool_decide_eq_true. split.
    + intros Hin. exists h, t. done.
    + intros (stem & ext & Heq & Hext & Hin).
      assert (Some (h, t) = Some (stem, ext)) as [= -> ->]; [|done].
      rewrite <- (proj2 (rpartition_Some "." (h +:+ String "." t) h t))
        by done.
      by apply rpartition_Some.
  - apply rpartition_None in Hpart. rewrite Hpart. split; [done|].
    intros (stem & ext & -> & _).
    change ("." +:+ ext) with (String "." ext) in Hpart.
    rewrite contains_after in Hpart. done.
Qed.

Lemma lstrip_spec s :
  ∃ l, s = l +:+ lstrip s ∧ all_space l = true
       ∧ ∀ c, first_char (lstrip s) = Some c → py_isspace c = false.
Proof.
  induction s as [|c s (l & Hs & Hl & Hfirst)].
  - exists "". done.
  - cbn [lstrip]. destruct (py_isspace c) eqn:Hc.
    + exists (String c l). rewrite app_String, <- Hs.
      cbn [all_space]. rewrite Hc, Hl. done.
    + exists "". split_and!; [done..|]. by intros ? [= <-].
Qed.

Lemma rstrip_spec s :
  ∃ r, s = rstrip s +:+ r ∧ all_space r = true
       ∧ (∀ c, last_char (rstrip s) = Some c → py_isspace c = false)
       ∧ first_char (rstrip s) = (if all_space s then None else first_char s).
Proof.
  induction s as [|c s (r & Hs & Hr & Hlast & Hfirst)].
  - exists "". done.
  - cbn [rstrip all_space].
    destruct (rstrip s) as [|d t] eqn:Hrs.
    + rewrite app_empty_l in Hs. subst r. rewrite Hr, andb_true_r.
      destruct (py_isspace c) eqn:Hc.
      * exists (String c s). cbn [all_space]. rewrite Hc, Hr. done.
      * exists s. split_and!; [done..| |done].
        intros ? [= <-]. done.
    + exists r. rewrite app_String, <- Hs. split_and!; [done..| |].
      * intros c'. cbn [last_char]. apply Hlast.
      * destruct (all_space s); [done|].
        by rewrite andb_false_r.
Qed.

(** [strip] removes white space, and only white space, from both ends. *)
Lemma strip_spec s :
  ∃ l r, s = l +:+ strip s +:+ r ∧ all_space l = true
         ∧ all_space r = true ∧ trimmed (strip s).
Proof.
  unfold strip, trimmed.
  destruct (lstrip_spec s) as (l & Hs & Hl & Hfirst).
  destruct (rstrip_spec (lstrip s)) as (r & Hs' & Hr & Hlast & Hfirst').
  exists l, r. split_and!; [by rewrite <- Hs'|done..| |done].
  intros c. rewrite Hfirst'. destruct (all_space (lstrip s)); [done|].
  apply Hfirst.
Qed.

End TextLemmas.

(** ** The store *)

Section StoreLemmas.

Lemma next_key_above {A} (m : gmap Z A) k :
  is_Some (m !! k) → k < next_key m.
Proof.
  unfold next_key.
  induction m as [|j x m Hj Hfold IH] using map_first_key_ind.
  - intros [? H]. by rewrite lookup_empty in H.
  - rewrite map_fold_insert_first_key by done.
    intros Hk. destruct (decide (j = k)) as [->|Hne]; [lia|].
    rewrite lookup_insert_ne in Hk by done. specialize (IH Hk). lia.
Qed.

Lemma next_key_fresh {A} (m : gmap Z A) : m !! next_key m = None.
Proof.
  destruct (m !! next_key m) eqn:H; [|done].
  pose proof (next_key_above m (next_key m) ltac:(eauto)). lia.
Qed.

Lemma slug_taken_false self s (ps : gmap Z Posts.t) :
  slug_taken self s ps = false ↔
  ∀ k p, ps !! k = Some p → Some k ≠ self → Posts.slug p ≠ s.
Proof.
  unfold slug_taken. rewrite bool_decide_eq_false. split.
  - intros Hno k p Hk Hself Hslug. apply Hno. exists k, p. done.
  - intros Hall (k & p & Hk & Hself & Hslug). by eapply Hall.
Qed.

End StoreLemmas.

(** ** Requests *)

(** Routing a request whose route and method are known to its view. *)
Ltac enter_view Hroute Hmethod :=
  unfold Views.full_dispatch_request, Views.view_function;
  rewrite Hroute, Hmethod; cbn [route_methods];
  rewrite bool_decide_eq_true_2 by set_solver.

Section Claims.

Variable params : Params.
Variable to_int : string -> option Z.
Variable secure_filename : string -> string.
Variable pk_of_text : string -> option Z.

Local Abbreviation serve :=
  (Views.full_dispatch_request params to_int secure_filename pk_of_text).

Lemma is_admin_logged_in_true sess :
  Views.is_admin_logged_in params sess = true ↔
  sess !! "user" = Some (admin_username params).
Proof. unfold Views.is_admin_logged_in. apply bool_decide_eq_true. Qed.

Lemma is_admin_logged_in_false sess :
  Views.is_admin_logged_in params sess = false ↔
  sess !! "user" ≠ Some (admin_username params).
Proof. unfold Views.is_admin_logged_in. apply bool_decide_eq_false. Qed.

(** C1: on every admin-only route and for every method the route accepts,
    a session whose identity is absent or differs from the configured
    admin username is answered by a redirect to the login route, and the
    world is left exactly as it was: no table is read or written, nothing
    is journalled. *)
Theorem admin_routes_redirect_to_login req w :
  admin_only (route req) = true →
  method req ∈ route_methods (route req) →
  session w !! "user" ≠ Some (admin_username params) →
  serve req w = (redirect (url_for "login"), w).
Proof.
  intros Hadmin Hmethod Hanon.
  apply is_admin_logged_in_false in Hanon.
  unfold Views.full_dispatch_request.
  rewrite bool_decide_eq_true_2 by done.
  unfold Views.view_function.
  destruct (route req); try discriminate Hadmin;
    unfold Views.dashboard, Views.edit, Views.delete, Views.upload;
    unfold mbind, M_bind, get_world; cbn [world]; rewrite Hanon; reflexivity.
Qed.

Lemma ceil_div_is_ceiling t p :
  0 < p → (ceil_div t p - 1) * p < t ≤ ceil_div t p * p.
Proof.
  intros Hp.
  pose proof (Z.div_mod t p ltac:(lia)) as Ht.
  pose proof (Z.mod_pos_bound t p Hp) as Hr.
  destruct (ceil_div_cases t p Hp) as [[H0 ->]|[Hpos ->]]; nia.
Qed.

Lemma last_page_of_exact T P :
  1 ≤ P → 0 ≤ T ≤ 2 ^ 53 →
  last_page_of T P = inr (Z.max 1 (ceil_div T P)).
Proof.
  intros HP HT. unfold last_page_of.
  destruct (true_divide_ceil T P HP HT) as (f & -> & ->). reflexivity.
Qed.

Global Instance date_desc_total : Total date_desc.
Proof. intros a b. unfold date_desc. lia. Qed.




Lemma not_both_false (a b : Prop) `{Decision a, Decision b} :
  ¬ (a ∧ b) → bool_decide a && bool_decide b = false.
Proof.
  intros Hn. destruct (decide a), (decide b);
    rewrite ?bool_decide_eq_true_2, ?bool_decide_eq_false_2 by done;
    try done. by destruct Hn.
Qed.


(** C5: every submitted contact form stores exactly one new Contact row,
    committed before the mail transport is tried; whatever the transport
    does, the row stays, a failure is caught and logged as a warning, and
    the request ends with the success notice and the redirect. *)
Theorem contact_post_persists_one_message req w :
  route req = r_contact → method req = POST →
  let entry :=
    Contact.mk (strip (Views.form_get req "name"))
               (strip (Views.form_get req "email"))
               (strip (Views.form_get req "phone"))
               (strip (Views.form_get req "msg")) (now req) in
  let k := next_key (contacts w) in
  let configured :=
    negb (bool_decide (gmail_user params = ""))
    && negb (bool_decide (gmail_pass params = "")) in
  let w' := snd (serve req w) in
  ∃ message,
    let mail_trace :=
      if configured then
        ev_mail message ::
        match smtp_error req with
        | Some text => [ev_log_warning ("Mail send failed: " +:+ text)]
        | None => []
        end
      else [] in
    fst (serve req w) = redirect (url_for "contact")
    ∧ contacts w !! k = None
    ∧ contacts w' = <[k := entry]> (contacts w)
    ∧ size (contacts w') = S (size (contacts w))
    ∧ posts w' = posts w
    ∧ flashes w' =
        flashes w ++ [("Thanks! Your message has been sent.", "success")]
    ∧ journal w' = journal w ++ ev_commit :: mail_trace.
Proof.
  intros Hroute Hmethod entry k configured w'.
  pose proof (next_key_fresh (contacts w)) as Hfresh.
  subst w'.
  enter_view Hroute Hmethod.
  unfold Views.contact. rewrite Hmethod. fold entry.
  unfold mbind, M_bind, stage, db_session_commit, try_except.
  cbn [world uow app flush apply_op posts contacts]. fold k.
  fold configured. eexists.
  destruct configured.
  - unfold mail_send_message, mbind, M_bind, modify_world, logger_warning.
    cbn [world uow].
    destruct (smtp_error req) as [text|]; cbn;
      (split_and!; [reflexivity|exact Hfresh|reflexivity
                   |by apply map_size_insert_None|reflexivity|reflexivity|]);
      rewrite <- !app_assoc; reflexivity.
  - cbn. split_and!; [reflexivity|exact Hfresh|reflexivity
                     |by apply map_size_insert_None|reflexivity..].
Qed.


(** C7, as the code has it: an authenticated edit-form submission with
    the sentinel identifier "0" inserts one new row carrying the trimmed
    fields, and with the identifier of an existing post overwrites the
    fields of that row and of no other, in both cases provided the
    unique-slug constraint admits the submitted slug. *)
Theorem edit_post_inserts_or_updates req w sr_no :
  route req = r_edit sr_no → method req = POST →
  Views.is_admin_logged_in params (session w) = true →
  let new_slug := strip (Views.form_get req "slug") in
  let row date :=
    Posts.mk (strip (Views.form_get req "title")) new_slug
             (strip (Views.form_get req "content"))
             (strip (Views.form_get req "tagline")) date
             (Some (strip (Views.form_get req "img_file"))) in
  let w' := snd (serve req w) in
  (sr_no = "0" →
   (∀ j p, posts w !! j = Some p → Posts.slug p ≠ new_slug) →
   let k := next_key (posts w) in
   serve req w =
     (redirect (url_for "dashboard"),
      add_flash "Post saved successfully!" "success"
        (log_event ev_commit
           (set_tables (<[k := row (now req)]> (posts w)) (contacts w) w)))
   ∧ posts w !! k = None
   ∧ posts w' !! k = Some (row (now req))
   ∧ (∀ j, j ≠ k → posts w' !! j = posts w !! j))
  ∧ (∀ k old,
       sr_no ≠ "0" → pk_of_text sr_no = Some k → posts w !! k = Some old →
       (∀ j p, j ≠ k → posts w !! j = Some p → Posts.slug p ≠ new_slug) →
       serve req w =
         (redirect (url_for "dashboard"),
          add_flash "Post saved successfully!" "success"
            (log_event ev_commit
               (set_tables (<[k := row (Posts.date old)]> (posts w))
                  (contacts w) (log_event (ev_select "posts") w))))
       ∧ posts w' !! k = Some (row (Posts.date old))
       ∧ (∀ j, j ≠ k → posts w' !! j = posts w !! j)).
Proof.
  intros Hroute Hmethod Hadmin new_slug row w'. subst w'.
  split.
  - intros -> Hfree.
    assert (Htaken : slug_taken None new_slug (posts w) = false).
    { apply slug_taken_false. intros j p Hj _. by apply (Hfree j). }
    assert (Hrun : serve req w =
      (redirect (url_for "dashboard"),
       add_flash "Post saved successfully!" "success"
         (log_event ev_commit
            (set_tables (<[next_key (posts w) := row (now req)]> (posts w))
               (contacts w) w)))).
    { enter_view Hroute Hmethod.
      unfold Views.edit, mbind, M_bind, get_world. cbn [world].
      rewrite Hadmin, Hmethod. cbn [negb].
      fold new_slug. fold (row (now req)).
      rewrite bool_decide_eq_true_2 by done.
      unfold mret, M_ret, stage, db_session_commit, flash, modify_world.
      cbn [world uow app flush apply_op posts contacts Posts.slug row].
      rewrite Htaken. reflexivity. }
    rewrite Hrun. cbn [snd posts add_flash log_event set_tables].
    split_and!; [reflexivity|apply next_key_fresh|apply lookup_insert_eq|].
    intros j Hj. by apply lookup_insert_ne.
  - intros k old Hsr Hpk Hold Hfree.
    assert (Htaken : slug_taken (Some k) new_slug (posts w) = false).
    { apply slug_taken_false. intros j p Hj Hne. apply (Hfree j); congruence. }
    assert (Hrun : serve req w =
      (redirect (url_for "dashboard"),
       add_flash "Post saved successfully!" "success"
         (log_event ev_commit
            (set_tables (<[k := row (Posts.date old)]> (posts w))
               (contacts w) (log_event (ev_select "posts") w))))).
    { enter_view Hroute Hmethod.
      unfold Views.edit, mbind, M_bind, get_world. cbn [world].
      rewrite Hadmin, Hmethod. cbn [negb].
      fold new_slug.
      rewrite bool_decide_eq_false_2 by done.
      unfold posts_get_or_404, select, mbind, M_bind, mret, M_ret, stage,
        db_session_commit, flash, modify_world, get_world.
      rewrite Hpk.
      cbn [world uow log_event posts contacts option_bind].
      rewrite Hold.
      cbn [fmap option_fmap option_map app flush apply_op posts contacts
           world uow log_event Posts.slug Posts.date].
      rewrite Htaken. reflexivity. }
    rewrite Hrun. cbn [snd posts add_flash log_event set_tables].
    split_and!; [reflexivity|apply lookup_insert_eq|].
    intros j Hj. by apply lookup_insert_ne.
Qed.


(** Past the gate no admin route answers with the login redirect. *)
Lemma admin_session_is_admitted req w :
  Views.is_admin_logged_in params (session w) = true →
  admin_only (route req) = true →
  fst (serve req w) ≠ redirect (url_for "login").
Proof.
  intros Hadmin Hroute.
  unfold Views.full_dispatch_request.
  case_bool_decide; [|done].
  unfold Views.view_function.
  destruct (route req) as [| | | | | | |sr_no|sr_no| |];
    try discriminate Hroute.
  - unfold Views.dashboard, mbind, M_bind, get_world. cbn [world].
    rewrite Hadmin. done.
  - unfold Views.edit, mbind, M_bind, get_world. cbn [world].
    rewrite Hadmin. cbn [negb].
    unfold posts_get_or_404, select, mbind, M_bind, mret, M_ret, stage,
      db_session_commit, flash, modify_world, get_world, raise.
    repeat (case_match; simplify_eq/=; try done).
  - unfold Views.delete, mbind, M_bind, get_world. cbn [world].
    rewrite Hadmin. cbn [negb].
    unfold posts_get_or_404, select, mbind, M_bind, mret, M_ret, stage,
      db_session_commit, flash, modify_world, get_world, raise.
    repeat (case_match; simplify_eq/=; try done).
  - unfold Views.upload, mbind, M_bind, get_world. cbn [world].
    rewrite Hadmin. cbn [negb].
    unfold file_save, flash, mbind, M_bind, mret, M_ret, modify_world.
    repeat (case_match; simplify_eq/=; try done).
Qed.

End Claims.

(** C9: with neither ADMIN_USERNAME nor ADMIN_PASSWORD in the
    environment both configured credentials are the empty string, so a
    login form with an empty username and an empty password is accepted:
    the session identity becomes the empty string, [is_admin_logged_in]
    holds for it, and no admin route sends that session back to login. *)
Theorem empty_default_credentials_admit_empty_login
    cfg env to_int secure_filename pk_of_text req w :
  env !! "ADMIN_USERNAME" = None → env !! "ADMIN_PASSWORD" = None →
  route req = r_login → method req = POST →
  Views.form_get req "username" = "" →
  Views.form_get req "password" = "" →
  let params := load_params cfg env in
  let serve :=
    Views.full_dispatch_request params to_int secure_filename pk_of_text in
  let w' := snd (serve req w) in
  admin_username params = "" ∧ admin_password params = ""
  ∧ fst (serve req w) = redirect (url_for "dashboard")
  ∧ session w' !! "user" = Some ""
  ∧ Views.is_admin_logged_in params (session w') = true
  ∧ (∀ req' w'', session w'' = session w' →
       admin_only (route req') = true →
       fst (serve req' w'') ≠ redirect (url_for "login")).
Proof.
  intros Huser Hpass Hroute Hmethod Hu Hp params serve w'.
  assert (Hau : admin_username params = "")
    by (unfold params, load_params, getenv; cbn; by rewrite Huser).
  assert (Hap : admin_password params = "")
    by (unfold params, load_params, getenv; cbn; by rewrite Hpass).
  assert (Hrun : serve req w =
    (redirect (url_for "dashboard"),
     set_session (<["user" := ""]> (session w)) w)).
  { unfold serve, Views.full_dispatch_request, Views.view_function.
    rewrite Hroute, Hmethod. cbn [route_methods].
    rewrite bool_decide_eq_true_2 by set_solver.
    unfold Views.login. rewrite Hmethod, Hu, Hp, Hau, Hap.
    rewrite !bool_decide_eq_true_2 by done. reflexivity. }
  assert (Hadmin : Views.is_admin_logged_in params (session w') = true).
  { subst w'. rewrite Hrun. cbn [snd set_session session].
    apply bool_decide_eq_true. by rewrite Hau, lookup_insert_eq. }
  split_and!; try done.
  - by rewrite Hrun.
  - subst w'. rewrite Hrun. cbn [snd set_session session].
    apply lookup_insert_eq.
  - intros req' w'' Hsess Hroute'.
    apply admin_session_is_admitted; [|done]. by rewrite Hsess.
Qed.

(** C10: a login attempt with credentials that do not match leaves the
    session untouched; an admin identity that was established before is
    still there afterwards and [is_admin_logged_in] still holds. *)
Theorem failed_login_keeps_session
    params to_int secure_filename pk_of_text req w :
  route req = r_login → method req = POST →
  ¬ (Views.form_get req "username" = admin_username params
     ∧ Views.form_get req "password" = admin_password params) →
  Views.is_admin_logged_in params (session w) = true →
  let serve :=
    Views.full_dispatch_request params to_int secure_filename pk_of_text in
  session (snd (serve req w)) = session w
  ∧ Views.is_admin_logged_in params (session (snd (serve req w))) = true.
Proof.
  intros Hroute Hmethod Hno Hadmin serve.
  assert (Hrun : serve req w =
    (render_template login_html 200,
     add_flash "Invalid username or password" "error" w)).
  { unfold serve. enter_view Hroute Hmethod.
    unfold Views.login. rewrite Hmethod.
    by rewrite not_both_false. }
  rewrite Hrun. done.
Qed.

(** ** Further properties of the requests *)

Ltac unfold_views :=
  unfold Views.full_dispatch_request, Views.view_function,
    Views.index, Views.post, Views.about, Views.contact, Views.login,
    Views.logout, Views.dashboard, Views.edit, Views.delete, Views.upload,
    Views.search, Views.no_file_selected,
    posts_count, posts_page, posts_all_asc, posts_filter_desc,
    posts_by_slug_or_404, posts_get_or_404, select, mail_send_message,
    logger_warning, file_save, flash, stage, db_session_commit, arith,
    try_except, modify_world, get_world, raise, mbind, M_bind, mret, M_ret.

Ltac split_cases := repeat (case_match; simplify_eq/=).

Section Extras.

Variable params : Params.
Variable to_int : string -> option Z.
Variable secure_filename : string -> string.
Variable pk_of_text : string -> option Z.

Local Abbreviation serve :=
  (Views.full_dispatch_request params to_int secure_filename pk_of_text).

Lemma loaded_row (key : option Z) (ps : gmap Z Posts.t) o :
  key ≫= (λ k : Z, pair k <$> ps !! k) = Some o →
  key = Some (fst o) ∧ ps !! fst o = Some (snd o).
Proof.
  destruct key as [k|]; [|done]. cbn.
  destruct (ps !! k) as [p|] eqn:Hk; [|done].
  intros [= <-]. done.
Qed.

Lemma serve_table_step req w :
  table_step (posts w) (contacts w)
    (posts (snd (serve req w))) (contacts (snd (serve req w))).
Proof.
  unfold_views. split_cases.
  all: try apply step_none.
  all: try apply step_add_contact.
  all: try (eapply step_add_post; eassumption).
  - match goal with
    | H : _ ≫= _ = Some _ |- _ => apply loaded_row in H as [_ H]
    end.
    eapply step_update_post; [eassumption|reflexivity|eassumption].
  - match goal with
    | H : _ <$> _ = Some _ |- _ =>
        apply (loaded_row (Some _)) in H as [_ H]
    end.
    eapply step_delete_post; eassumption.
Qed.


(** What one request can do to the tables, read through the step. *)
Lemma table_step_unique_slugs ps cs ps' cs' :
  table_step ps cs ps' cs' → unique_slugs ps → unique_slugs ps'.
Proof.
  intros Hstep Huniq.
  destruct Hstep as [|c|p Hfree|k old p Hold _ Hfree|k old Hold]; try done.
  - pose proof (proj1 (slug_taken_false _ _ _) Hfree) as Hno.
    intros k1 k2 p1 p2.
    rewrite !lookup_insert. repeat case_decide; simplify_eq; try done.
    + intros [= <-] H2 Heq. destruct (Hno k2 p2 H2); done.
    + intros H1 [= <-] Heq. destruct (Hno k1 p1 H1); done.
    + apply Huniq.
  - pose proof (proj1 (slug_taken_false _ _ _) Hfree) as Hno.
    intros k1 k2 p1 p2.
    rewrite !lookup_insert. repeat case_decide; simplify_eq; try done.
    + intros [= <-] H2 Heq. destruct (Hno k2 p2 H2); congruence.
    + intros H1 [= <-] Heq. destruct (Hno k1 p1 H1); congruence.
    + apply Huniq.
  - intros k1 k2 p1 p2 H1 H2.
    apply lookup_delete_Some in H1 as [_ H1], H2 as [_ H2]. by apply Huniq.
Qed.

(** X1: whatever the request, if no two posts shared a slug before it,
    no two posts share a slug after it. *)
Theorem requests_keep_slugs_unique req w :
  unique_slugs (posts w) → unique_slugs (posts (snd (serve req w))).
Proof. eapply table_step_unique_slugs, serve_table_step. Qed.

(** X2: no request changes or removes a stored contact message, and a
    request adds at most one. *)
Theorem contacts_are_append_only req w :
  let w' :=
    snd (Views.full_dispatch_request params to_int secure_filename
           pk_of_text req w) in
  (∀ k c, contacts w !! k = Some c → contacts w' !! k = Some c)
  ∧ (size (contacts w') ≤ S (size (contacts w)))%nat.
Proof.
  intros w'. subst w'.
  destruct (serve_table_step req w) as [|c| | |]; try (split; [done|lia]).
  pose proof (next_key_fresh (contacts w)) as Hfresh.
  split.
  - intros k c' Hk. rewrite lookup_insert_ne; [done|]. congruence.
  - rewrite map_size_insert_None by done. lia.
Qed.

(** X3: a post that is still there after a request has kept its creation
    time (editing overwrites the other fields only). *)
Theorem posts_keep_key_and_date req w k p :
  posts w !! k = Some p →
  let w' :=
    snd (Views.full_dispatch_request params to_int secure_filename
           pk_of_text req w) in
  ∀ p', posts w' !! k = Some p' → Posts.date p' = Posts.date p.
Proof.
  intros Hk w' p'. subst w'.
  destruct (serve_table_step req w)
    as [|c|q Hfree|j old q Hold Hdate _|j old Hold].
  - congruence.
  - congruence.
  - pose proof (next_key_fresh (posts w)).
    rewrite lookup_insert_ne by congruence. congruence.
  - rewrite lookup_insert. case_decide; simplify_eq; [|congruence].
    intros [= <-]. congruence.
  - rewrite lookup_delete_Some. intros [_ ?]. congruence.
Qed.

(** X4: one request changes the posts table at one key at most. *)
Theorem request_touches_one_post req w :
  let w' :=
    snd (Views.full_dispatch_request params to_int secure_filename
           pk_of_text req w) in
  ∃ k, ∀ j, j ≠ k → posts w' !! j = posts w !! j.
Proof.
  intros w'. subst w'.
  destruct (serve_table_step req w) as [|c|q _|j old q _ _ _|j old _].
  - by exists 0.
  - by exists 0.
  - exists (next_key (posts w)). intros j Hj. by rewrite lookup_insert_ne.
  - exists j. intros i Hi. by rewrite lookup_insert_ne.
  - exists j. intros i Hi. by rewrite lookup_delete_ne.
Qed.

(** X5: a request from a session that is not the admin's, on any route and
    with any method, leaves the posts table and the upload directory as
    they were. *)
Theorem anonymous_requests_write_no_post req w :
  session w !! "user" ≠ Some (admin_username params) →
  let w' :=
    snd (Views.full_dispatch_request params to_int secure_filename
           pk_of_text req w) in
  posts w' = posts w ∧ uploaded w' = uploaded w.
Proof.
  intros Hanon w'. subst w'. apply is_admin_logged_in_false in Hanon.
  unfold_views. split_cases; try done;
    match goal with
    | H : negb _ = false |- _ => by rewrite Hanon in H
    end.
Qed.

(** X6: a GET request, on any route, writes to neither table nor to the
    upload directory. *)
Theorem get_requests_are_read_only req w :
  method req = GET →
  let w' :=
    snd (Views.full_dispatch_request params to_int secure_filename
           pk_of_text req w) in
  posts w' = posts w ∧ contacts w' = contacts w ∧ uploaded w' = uploaded w.
Proof.
  intros Hget w'. subst w'. unfold_views. rewrite ?Hget. split_cases; done.
Qed.



(** *** The listing *)

Lemma last_page_of_positive total per_page n :
  last_page_of total per_page = inr n → 1 ≤ n.
Proof.
  unfold last_page_of. destruct (long_true_divide _ _); [done|].
  intros [= <-]. lia.
Qed.

(** X8: in every listing the served page lies in [1, last_page], the
    previous link is absent exactly on page 1 and the next link exactly on
    the last page; a link that is present points to the neighbouring
    page. *)
Theorem index_links_match_page req w served prev next page last_page total :
  route req = r_index → method req = GET →
  fst (Views.full_dispatch_request params to_int secure_filename pk_of_text
         req w)
  = render_template (index_html served prev next page last_page total) 200 →
  total = Z.of_nat (size (posts w))
  ∧ 1 ≤ page ≤ last_page
  ∧ (prev = None ↔ page = 1)
  ∧ (next = None ↔ page = last_page)
  ∧ (∀ u, prev = Some u → u = url_for_page "index" (page - 1))
  ∧ (∀ u, next = Some u → u = url_for_page "index" (page + 1)).
Proof.
  intros Hroute Hmethod. enter_view Hroute Hmethod.
  unfold Views.index, posts_count, posts_page, select, mbind, M_bind,
    mret, M_ret, modify_world, get_world.
  cbn [world uow log_event posts].
  destruct (last_page_of _ _) as [e|n] eqn:Hlast; [done|].
  apply last_page_of_positive in Hlast.
  cbn [arith mret M_ret fst]. intros [= <- <- <- <- <- <-].
  set (page := Z.min (Z.max 1 _) n).
  assert (Hpage : 1 ≤ page ≤ n) by (subst page; lia).
  clearbody page.
  refine (conj eq_refl (conj Hpage (conj _ (conj _ (conj _ _))))).
  - destruct (Z.ltb_spec 1 page); split; try done; lia.
  - destruct (Z.ltb_spec page n); split; try done; lia.
  - intros u. case_match; [|done]. by intros [= <-].
  - intros u. case_match; [|done]. by intros [= <-].
Qed.

(** X9: with a configured page size of 0 the listing divides by zero and
    ends in the 500 page, after the one count query. *)
Theorem index_zero_page_size_fails req w :
  route req = r_index → method req = GET →
  default 5 (no_of_posts params) = 0 →
  serve req w = (render_template server_error_html 500,
                 log_event (ev_select "posts") w).
Proof.
  intros Hroute Hmethod Hzero. enter_view Hroute Hmethod.
  unfold Views.index, posts_count, select, mbind, M_bind,
    mret, M_ret, modify_world, get_world.
  cbn [world uow log_event posts]. rewrite Hzero.
  unfold last_page_of, long_true_divide. cbn [Z.eqb]. reflexivity.
Qed.


(** X10: for a page size of at least 1 (and at most [2 ^ 53] posts) the
    served page holds [min(P, total - (page - 1) * P)] posts: it is not
    empty when there are posts, and full when it is not the last page. *)
Theorem index_page_is_never_short req w served prev next page last_page total :
  route req = r_index → method req = GET →
  1 ≤ default 5 (no_of_posts params) →
  Z.of_nat (size (posts w)) ≤ 2 ^ 53 →
  fst (Views.full_dispatch_request params to_int secure_filename pk_of_text
         req w)
  = render_template (index_html served prev next page last_page total) 200 →
  let P := default 5 (no_of_posts params) in
  Z.of_nat (length served) = Z.min P (total - (page - 1) * P)
  ∧ (0 < total → served ≠ [])
  ∧ (page < last_page → Z.of_nat (length served) = P).
Proof.
  intros Hroute Hmethod HP HT. enter_view Hroute Hmethod.
  unfold Views.index, posts_count, posts_page, select, mbind, M_bind,
    mret, M_ret, modify_world, get_world.
  cbn [world uow log_event posts].
  rewrite last_page_of_exact by lia.
  cbn [arith mret M_ret fst]. intros [= <- _ _ <- <- <-].
  set (P := default 5 (no_of_posts params)) in *.
  set (T := Z.of_nat (size (posts w))) in *.
  set (page := Z.min (Z.max 1 _) (Z.max 1 (ceil_div T P))).
  pose proof (ceil_div_is_ceiling T P ltac:(lia)) as Hceil.
  assert (Hpage : 1 ≤ page ≤ Z.max 1 (ceil_div T P)) by (subst page; lia).
  clearbody page.
  assert (Hlen : length (merge_sort date_desc (map_to_list (posts w)))
                 = size (posts w)).
  { rewrite merge_sort_Permutation. apply length_map_to_list. }
  unfold limit, offset. destruct (Z.ltb_spec P 0); [lia|].
  rewrite length_take, length_drop, Hlen.
  assert (Hoff : (page - 1) * P < T ∨ T = 0) by nia.
  assert (Hlength :
    Z.of_nat (Z.to_nat P `min` (size (posts w) - Z.to_nat ((page - 1) * P)))
    = Z.min P (T - (page - 1) * P)) by (subst T; nia).
  split; [exact Hlength|]. split.
  - intros Hpos Hnil. apply (f_equal length) in Hnil.
    rewrite length_take, length_drop, Hlen in Hnil. cbn in Hnil. nia.
  - intros Hlt. rewrite Hlength. nia.
Qed.


Lemma slices_cover {A} (l : list A) (p n : nat) :
  (length l ≤ n * p)%nat →
  concat ((λ i, take p (drop (i * p) l)) <$> seq 0 n) = l.
Proof.
  revert l. induction n as [|n IH]; intros l Hlen.
  - destruct l; [done|]. cbn in Hlen. lia.
  - cbn [seq fmap list_fmap concat].
    rewrite <- fmap_S_seq, <- list_fmap_compose.
    etrans; [|apply (take_drop p l)]. f_equal.
    etrans; [|apply (IH (drop p l)); rewrite length_drop; lia].
    f_equal. apply list_fmap_ext. intros _ i _. cbn.
    by rewrite drop_drop.
Qed.

(** X11: the slices of pages 1 to [last_page], one after the other, are the
    whole ordered list: every post is on exactly one page. *)
Theorem listing_pages_cover_all_posts {A} (l : list A) P last_page :
  1 ≤ P → Z.of_nat (length l) ≤ 2 ^ 53 →
  last_page_of (Z.of_nat (length l)) P = inr last_page →
  concat ((λ page, limit P (offset ((page - 1) * P) l)) <$> seqZ 1 last_page)
  = l.
Proof.
  intros HP HT. rewrite last_page_of_exact by lia. intros [= <-].
  pose proof (ceil_div_is_ceiling (Z.of_nat (length l)) P ltac:(lia)) as Hc.
  set (n := Z.max 1 (ceil_div (Z.of_nat (length l)) P)) in *.
  unfold seqZ. rewrite <- list_fmap_compose.
  etrans; [|apply (slices_cover l (Z.to_nat P) (Z.to_nat n)); nia].
  f_equal. apply list_fmap_ext. intros _ i _. cbn. unfold limit, offset.
  destruct (Z.ltb_spec P 0); [lia|]. do 2 f_equal. nia.
Qed.

Lemma slug_lookup (ps : gmap Z Posts.t) s k p :
  ps !! k = Some p → Posts.slug p = s →
  (∀ j q, ps !! j = Some q → Posts.slug q = s → j = k) →
  ∃ rest, filter (λ o, Posts.slug (snd o) = s) (map_to_list ps)
          = (k, p) :: rest.
Proof.
  intros Hk Hs Honly.
  destruct (filter _ (map_to_list ps)) as [|[j q] rest] eqn:Hfilter.
  - assert (Hin : (k, p) ∈ filter (λ o, Posts.slug (snd o) = s)
                            (map_to_list ps)).
    { apply list_elem_of_filter. split; [done|].
      by apply elem_of_map_to_list. }
    rewrite Hfilter in Hin. by apply not_elem_of_nil in Hin.
  - assert (Hin : (j, q) ∈ filter (λ o, Posts.slug (snd o) = s)
                            (map_to_list ps))
      by (rewrite Hfilter; apply list_elem_of_here).
    apply list_elem_of_filter in Hin as [Hq Hjq].
    apply elem_of_map_to_list in Hjq. cbn in Hq.
    assert (j = k) as -> by eauto. assert (q = p) as -> by congruence.
    eauto.
Qed.

Lemma slug_lookup_none (ps : gmap Z Posts.t) s :
  (∀ k p, ps !! k = Some p → Posts.slug p ≠ s) →
  filter (λ o, Posts.slug (snd o) = s) (map_to_list ps) = [].
Proof.
  intros Hnone.
  destruct (filter _ (map_to_list ps)) as [|[j q] rest] eqn:Hfilter; [done|].
  assert (Hin : (j, q) ∈ filter (λ o, Posts.slug (snd o) = s)
                          (map_to_list ps))
    by (rewrite Hfilter; apply list_elem_of_here).
  apply list_elem_of_filter in Hin as [Hq Hjq].
  apply elem_of_map_to_list in Hjq. by destruct (Hnone j q).
Qed.

(** X12: the post view answers 404 when no post has the slug, and renders
    the post that has it otherwise. *)
Theorem post_view_serves_the_slug req w post_slug :
  route req = r_post post_slug → method req = GET →
  ((∀ k p, posts w !! k = Some p → Posts.slug p ≠ post_slug) →
   serve req w = (render_template not_found_html 404,
                  log_event (ev_select "posts") w))
  ∧ (∀ k p, unique_slugs (posts w) →
       posts w !! k = Some p → Posts.slug p = post_slug →
       serve req w = (render_template (post_html (k, p)) 200,
                      log_event (ev_select "posts") w)).
Proof.
  intros Hroute Hmethod. enter_view Hroute Hmethod.
  unfold Views.post, posts_by_slug_or_404, select, mbind, M_bind,
    mret, M_ret, modify_world, get_world.
  cbn [world uow log_event posts]. split.
  - intros Hnone. by rewrite slug_lookup_none.
  - intros k p Huniq Hk Hs.
    destruct (slug_lookup (posts w) post_slug k p Hk Hs) as [rest ->];
      [|done].
    intros j q Hj Hq. apply (Huniq j k q p); congruence.
Qed.

Global Instance date_asc_total : Total date_asc.
Proof. intros a b. unfold date_asc. lia. Qed.

(** X13: for the admin the dashboard lists every post of the table, each
    once, in ascending order of creation time. *)
Theorem dashboard_lists_every_post_oldest_first req w :
  route req = r_dashboard → method req = GET →
  Views.is_admin_logged_in params (session w) = true →
  ∃ listed,
    serve req w = (render_template (dashboard_html listed) 200,
                   log_event (ev_select "posts") w)
    ∧ Sorted date_asc listed
    ∧ NoDup listed
    ∧ (∀ k p, (k, p) ∈ listed ↔ posts w !! k = Some p).
Proof.
  intros Hroute Hmethod Hadmin. enter_view Hroute Hmethod.
  unfold Views.dashboard, posts_all_asc, select, mbind, M_bind,
    mret, M_ret, modify_world, get_world.
  cbn [world uow log_event posts]. rewrite Hadmin. cbn [negb].
  eexists. split_and!; [reflexivity|..].
  - apply Sorted_merge_sort; apply _.
  - rewrite merge_sort_Permutation. apply NoDup_map_to_list.
  - intros k p. rewrite merge_sort_Permutation. apply elem_of_map_to_list.
Qed.

(** X14: an edit request, GET or POST, whose identifier is not the sentinel
    and names no post ends in 404 and changes nothing but the journal of
    reads. *)
Theorem edit_unknown_post_is_not_found req w sr_no :
  route req = r_edit sr_no →
  Views.is_admin_logged_in params (session w) = true →
  sr_no ≠ "0" →
  (∀ k, pk_of_text sr_no = Some k → posts w !! k = None) →
  serve req w = (render_template not_found_html 404,
                 log_event (ev_select "posts") w).
Proof.
  intros Hroute Hadmin Hsr Hnone.
  unfold Views.full_dispatch_request, Views.view_function.
  rewrite Hroute. cbn [route_methods].
  rewrite bool_decide_eq_true_2 by (destruct (method req); set_solver).
  unfold Views.edit, posts_get_or_404, select, mbind, M_bind,
    mret, M_ret, modify_world, get_world, raise.
  cbn [world uow log_event posts]. rewrite Hadmin. cbn [negb].
  rewrite bool_decide_eq_false_2 by done.
  destruct (pk_of_text sr_no) as [k|] eqn:Hpk; cbn; [|done].
  by rewrite (Hnone k).
Qed.

(** *** Search *)


Lemma map_chars_fixes_percent : sql_lower "%" = "%".
Proof. reflexivity. Qed.



(** *** Requests in sequence *)


(** X17: once a post is deleted, the post view answers 404 for its slug. *)
Theorem deleted_post_is_gone_from_its_slug remove view w k p :
  route remove = r_delete k → method remove = POST →
  Views.is_admin_logged_in params (session w) = true →
  unique_slugs (posts w) → posts w !! k = Some p →
  route view = r_post (Posts.slug p) → method view = GET →
  fst (serve view (snd (serve remove w)))
  = render_template not_found_html 404.
Proof.
  intros Hroute Hmethod Hadmin Huniq Hk Hview Hget.
  assert (Hrun : posts (snd (serve remove w)) = base.delete k (posts w)).
  { enter_view Hroute Hmethod.
    unfold Views.delete, mbind, M_bind, get_world. cbn [world].
    rewrite Hadmin. cbn [negb].
    unfold posts_get_or_404, select, mbind, M_bind, modify_world, get_world.
    cbn [world uow log_event posts option_bind]. rewrite Hk. reflexivity. }
  remember (snd (serve remove w)) as w1 eqn:Ew1. clear Ew1.
  enter_view Hview Hget.
  unfold Views.post, posts_by_slug_or_404, select, mbind, M_bind,
    mret, M_ret, modify_world, get_world.
  cbn [world uow log_event posts]. rewrite Hrun.
  rewrite slug_lookup_none; [done|].
  intros j q Hj Hq. apply lookup_delete_Some in Hj as [Hne Hj].
  apply Hne. symmetry. by apply (Huniq j k q p).
Qed.

Lemma anonymous_is_sent_to_login req w :
  admin_only (route req) = true →
  method req ∈ route_methods (route req) →
  Views.is_admin_logged_in params (session w) = false →
  serve req w = (redirect (url_for "login"), w).
Proof.
  intros Hadmin Hmethod Hanon.
  unfold Views.full_dispatch_request.
  rewrite bool_decide_eq_true_2 by done.
  unfold Views.view_function.
  destruct (route req); try discriminate Hadmin;
    unfold Views.dashboard, Views.edit, Views.delete, Views.upload;
    unfold mbind, M_bind, get_world; cbn [world]; rewrite Hanon; reflexivity.
Qed.

(** X18: logout removes the identity and nothing else from the session,
    whether or not one was set; afterwards every admin route redirects to
    login. *)
Theorem logout_ends_the_admin_session req w :
  route req = r_logout → method req = GET →
  let w' := snd (serve req w) in
  fst (serve req w) = redirect (url_for "login")
  ∧ session w' !! "user" = None
  ∧ (∀ key, key ≠ "user" → session w' !! key = session w !! key)
  ∧ Views.is_admin_logged_in params (session w') = false
  ∧ (∀ next, admin_only (route next) = true →
       method next ∈ route_methods (route next) →
       serve next w' = (redirect (url_for "login"), w')).
Proof.
  intros Hroute Hmethod w'.
  assert (Hrun : serve req w =
    (redirect (url_for "login"),
     add_flash "Logged out." "info"
       (set_session (base.delete "user" (session w)) w))).
  { enter_view Hroute Hmethod. reflexivity. }
  assert (Hgone : session w' !! "user" = None).
  { subst w'. rewrite Hrun. apply lookup_delete_eq. }
  assert (Hanon : Views.is_admin_logged_in params (session w') = false).
  { apply bool_decide_eq_false. by rewrite Hgone. }
  split_and!; try done.
  - by rewrite Hrun.
  - intros key Hkey. subst w'. rewrite Hrun. by apply lookup_delete_ne.
  - intros next Hnext Hm. by apply anonymous_is_sent_to_login.
Qed.

(** X19: two accepted uploads whose sanitised names agree leave one file,
    holding the bytes of the second. *)
Theorem upload_replaces_a_file_of_the_same_name first second w f1 f2 :
  route first = r_upload → method first = POST →
  route second = r_upload → method second = POST →
  Views.is_admin_logged_in params (session w) = true →
  files first !! "file1" = Some f1 → files second !! "file1" = Some f2 →
  allowed_file (filename f1) = true → allowed_file (filename f2) = true →
  secure_filename (filename f1) = secure_filename (filename f2) →
  uploaded (snd (serve second (snd (serve first w))))
  = <[os_path_join (UPLOAD_FOLDER params) (secure_filename (filename f2))
      := stream f2]> (uploaded w).
Proof.
  intros Hr1 Hm1 Hr2 Hm2 Hadmin Hf1 Hf2 Ha1 Ha2 Hsame.
  assert (Hname : ∀ f, allowed_file (filename f) = true → filename f ≠ "").
  { intros f Hf He. rewrite He in Hf. done. }
  assert (Hrun : ∀ req f v,
    route req = r_upload → method req = POST →
    Views.is_admin_logged_in params (session v) = true →
    files req !! "file1" = Some f → allowed_file (filename f) = true →
    session (snd (serve req v)) = session v
    ∧ uploaded (snd (serve req v))
      = <[os_path_join (UPLOAD_FOLDER params) (secure_filename (filename f))
          := stream f]> (uploaded v)).
  { intros req f v Hr Hm Hv Hf Ha. enter_view Hr Hm.
    unfold Views.upload, mbind, M_bind, get_world. cbn [world].
    rewrite Hv, Hm, Hf. cbn [negb]. unfold Views.no_file_selected.
    rewrite bool_decide_eq_false_2 by auto. rewrite Ha. done. }
  destruct (Hrun first f1 w Hr1 Hm1 Hadmin Hf1 Ha1) as [Hs1 Hu1].
  destruct (Hrun second f2 (snd (serve first w)) Hr2 Hm2) as [_ Hu2];
    [by rewrite Hs1|done..|].
  rewrite Hu2, Hu1, Hsame. apply insert_insert_eq.
Qed.


End Extras.

(** *** Uploads *)

(** X20: only the part after the last dot decides: with a dot-free [ext],
    [allowed_file (stem + "." + ext)] holds exactly when [ext] lower-cased
    is an allowed extension, whatever [stem] is, and a name without a dot
    is refused. *)
Theorem allowed_file_reads_the_last_extension stem ext :
  contains "." ext = false →
  allowed_file (stem +:+ "." +:+ ext)
  = bool_decide (py_lower ext ∈ ALLOWED_EXTENSIONS)
  ∧ allowed_file ext = false.
Proof.
  intros Hext. split.
  - destruct (allowed_file (stem +:+ "." +:+ ext)) eqn:Hallowed.
    + apply allowed_file_spec in Hallowed as (stem' & ext' & Heq & Hdot & Hin).
      assert (Some (stem, ext) = Some (stem', ext')) as [= <- <-].
      { rewrite <- (proj2 (rpartition_Some "." (stem +:+ "." +:+ ext)
                             stem ext)) by done.
        apply rpartition_Some. split; [exact Heq|exact Hdot]. }
      by rewrite bool_decide_eq_true_2.
    + symmetry. apply bool_decide_eq_false. intros Hin.
      assert (allowed_file (stem +:+ "." +:+ ext) = true); [|congruence].
      apply allowed_file_spec. by exists stem, ext.
  - unfold allowed_file. by rewrite Hext.
Qed.

Lemma NoDup_fmap_agree {A B} (f : A → B) (l : list A) x y :
  NoDup (f <$> l) → x ∈ l → y ∈ l → f x = f y → x = y.
Proof.
  induction l as [|a l IH]; [by intros _ ?%not_elem_of_nil|].
  rewrite fmap_cons, NoDup_cons. intros [Hnot Hnodup].
  intros [->|Hx]%elem_of_cons [->|Hy]%elem_of_cons Hf; auto.
  - destruct Hnot. rewrite Hf. by apply list_elem_of_fmap_2.
  - destruct Hnot. rewrite <- Hf. by apply list_elem_of_fmap_2.
Qed.

Lemma unique_slugs_of_list (ps : gmap Z Posts.t) :
  NoDup ((λ o, Posts.slug (snd o)) <$> map_to_list ps) → unique_slugs ps.
Proof.
  intros Hnodup k1 k2 p1 p2 H1 H2 Hslug.
  apply elem_of_map_to_list in H1, H2.
  pose proof (NoDup_fmap_agree _ _ (k1, p1) (k2, p2) Hnodup H1 H2 Hslug).
  congruence.
Qed.

(** ** Instances on the sample data *)

(** An anonymous edit submission is sent to login and changes nothing. *)
Lemma admin_routes_redirect_to_login_witness :
  let req := demo_request (r_edit "1") POST ∅ {["title" := "x"]} in
  admin_only (route req) = true
  ∧ method req ∈ route_methods (route req)
  ∧ session demo_world !! "user" ≠ Some (admin_username demo_params)
  ∧ demo_serve req demo_world = (redirect (url_for "login"), demo_world).
Proof.
  intros req.
  assert (H1 : admin_only (route req) = true) by reflexivity.
  assert (H2 : method req ∈ route_methods (route req))
    by (cbn; set_solver).
  assert (H3 : session demo_world !! "user"
               ≠ Some (admin_username demo_params)) by (vm_compute; discriminate).
  exact (conj H1 (conj H2 (conj H3
    (admin_routes_redirect_to_login demo_params decimal (fun name => name)
       decimal req demo_world H1 H2 H3)))).
Defined.


(** [1 / 3] is [0x1.5555555555555p-2], its ceiling is 1; [7 / 2] is
    exact; a quotient too large for a double raises. *)
Example true_divide_values :
  long_true_divide 1 3 = inr (Finite (4 * 6004799503160661) (-56))
  ∧ last_page_of 1 3 = inr 1
  ∧ long_true_divide 7 2 = inr (Finite (7 * 2 ^ 53) (-54))
  ∧ long_true_divide (2 ^ 1024) 1 = inl OverflowError
  ∧ long_true_divide 1 0 = inl ZeroDivisionError.
Proof.
  split; [vm_compute; reflexivity|].
  split; [vm_compute; reflexivity|].
  split; [vm_compute; reflexivity|].
  split; vm_compute; reflexivity.
Qed.

(** Page 3 of twelve posts, five a page: the two oldest posts, a link
    back to page 2 and none forward. *)
Example listing_last_page :
  listing_of (list_page "3")
  = Some ([2; 1], Some (url_for_page "index" 2), None, 3, 3).
Proof. vm_compute. reflexivity. Qed.

(** Pages 0 and 99 are served as pages 1 and 3. *)
Example listing_clamps_page :
  listing_of (list_page "0")
  = Some ([12; 11; 10; 9; 8], None, Some (url_for_page "index" 2), 1, 3)
  ∧ listing_of (list_page "99") = listing_of (list_page "3").
Proof. split; vm_compute; reflexivity. Qed.







(** The trimming shows as well: a query of one blank is not empty and
    occurs in the content of post 3, yet nothing is returned. *)
Lemma search_blank_query_returns_nothing :
  let req := demo_request r_search GET {["q" := " "]} ∅ in
  demo_serve req demo_world =
    (render_template (search_html "" []) 200, demo_world)
  ∧ ∃ p, posts demo_world !! 3 = Some p ∧ ci_substring " " (Posts.content p).
Proof.
  intros req. split; [vm_compute; reflexivity|].
  eexists. split; [vm_compute; reflexivity|].
  exists "a", "b". reflexivity.
Qed.


(** The transport refuses the connection; the message is stored and the
    failure logged all the same. *)
Lemma contact_post_persists_one_message_witness :
  let req := demo_request r_contact POST ∅
               {["name" := " Ada "; "msg" := "hi"]} in
  let w' := snd (demo_serve req demo_world) in
  fst (demo_serve req demo_world) = redirect (url_for "contact")
  ∧ size (contacts w') = 1%nat
  ∧ ∃ message,
      journal w' = [ev_commit; ev_mail message;
                    ev_log_warning "Mail send failed: connection refused"].
Proof.
  intros req w'.
  destruct (contact_post_persists_one_message demo_params decimal
              (fun name => name) decimal req demo_world eq_refl eq_refl)
    as (message & Hresp & _ & _ & Hsize & _ & _ & Hjournal).
  split; [exact Hresp|]. split; [exact Hsize|].
  exists message. exact Hjournal.
Defined.


(** A fresh slug creates post 4; editing post 2 retitles it and touches
    no other post. *)
Lemma edit_post_inserts_or_updates_witness :
  let create := demo_request (r_edit "0") POST ∅
                  {["title" := " New "; "slug" := "new"]} in
  let update := demo_request (r_edit "2") POST ∅
                  {["title" := "Flask tricks"; "slug" := "flask-tips"]} in
  Views.is_admin_logged_in demo_params (session demo_admin_world) = true
  ∧ Posts.title
      <$> posts (snd (demo_serve create demo_admin_world)) !! 4 = Some "New"
  ∧ Posts.title
      <$> posts (snd (demo_serve update demo_admin_world)) !! 2
      = Some "Flask tricks"
  ∧ (∀ j, j ≠ 2 → posts (snd (demo_serve update demo_admin_world)) !! j
                  = posts demo_admin_world !! j).
Proof.
  intros create update.
  assert (H1 : Views.is_admin_logged_in demo_params
                 (session demo_admin_world) = true) by (vm_compute; reflexivity).
  split; [exact H1|].
  destruct (edit_post_inserts_or_updates demo_params decimal
              (fun name => name) decimal create demo_admin_world "0"
              eq_refl eq_refl H1) as [Hcreate _].
  destruct (edit_post_inserts_or_updates demo_params decimal
              (fun name => name) decimal update demo_admin_world "2"
              eq_refl eq_refl H1) as [_ Hupdate].
  split; [|split].
  - destruct (Hcreate eq_refl) as (_ & _ & Hrow & _).
    + intros j p Hj.
      eapply (proj1 (slug_taken_false None "new" (posts demo_admin_world)));
        [vm_compute; reflexivity|exact Hj|discriminate].
    + change (next_key (posts demo_admin_world)) with 4 in Hrow.
      unfold demo_serve. rewrite Hrow. vm_compute. reflexivity.
  - destruct (Hupdate 2 (Posts.mk "Flask tips" "flask-tips" "Use blueprints"
                           "howto" 20 (Some "tips.png")))
      as (_ & Hrow & _); [discriminate|reflexivity|reflexivity| |].
    + intros j p Hne Hj.
      eapply (proj1 (slug_taken_false (Some 2) "flask-tips"
                       (posts demo_admin_world)));
        [vm_compute; reflexivity|exact Hj|congruence].
    + unfold demo_serve. rewrite Hrow. reflexivity.
  - destruct (Hupdate 2 (Posts.mk "Flask tips" "flask-tips" "Use blueprints"
                           "howto" 20 (Some "tips.png")))
      as (_ & _ & Hframe); [discriminate|reflexivity|reflexivity| |].
    + intros j p Hne Hj.
      eapply (proj1 (slug_taken_false (Some 2) "flask-tips"
                       (posts demo_admin_world)));
        [vm_compute; reflexivity|exact Hj|congruence].
    + exact Hframe.
Defined.

(** C7 as stated fails: the identifier is the sentinel, the session is the
    admin's, but the submitted slug is already that of post 1; the store
    rejects the insert and the table is left as it was. *)
Lemma edit_duplicate_slug_counterexample :
  let req := demo_request (r_edit "0") POST ∅
               {["title" := "Hello again"; "slug" := " hello "]} in
  Views.is_admin_logged_in demo_params (session demo_admin_world) = true
  ∧ demo_serve req demo_admin_world =
      (render_template server_error_html 500,
       log_event ev_rollback demo_admin_world)
  ∧ posts (snd (demo_serve req demo_admin_world)) = posts demo_admin_world.
Proof. intros req. split_and!; vm_compute; reflexivity. Qed.


(** An environment without the two variables, and an empty login form. *)
Lemma empty_default_credentials_admit_empty_login_witness :
  let cfg := {| cfg_no_of_posts := Some 5; cfg_upload_folder := None |} in
  let env : gmap string string := {["SECRET_KEY" := "k"]} in
  let params := load_params cfg env in
  let req := demo_request r_login POST ∅ ∅ in
  let w' := snd (Views.full_dispatch_request params decimal
                   (fun name => name) decimal req demo_world) in
  env !! "ADMIN_USERNAME" = None ∧ env !! "ADMIN_PASSWORD" = None
  ∧ session w' !! "user" = Some ""
  ∧ Views.is_admin_logged_in params (session w') = true.
Proof.
  intros cfg env params req w'.
  assert (H1 : env !! "ADMIN_USERNAME" = None) by reflexivity.
  assert (H2 : env !! "ADMIN_PASSWORD" = None) by reflexivity.
  split; [exact H1|]. split; [exact H2|].
  destruct (empty_default_credentials_admit_empty_login cfg env decimal
              (fun name => name) decimal req demo_world H1 H2
              eq_refl eq_refl eq_refl eq_refl)
    as (_ & _ & _ & Hsess & Hadmin & _).
  split; [exact Hsess|exact Hadmin].
Defined.

(** A wrong guess from an admin session leaves that session in place. *)
Lemma failed_login_keeps_session_witness :
  let req := demo_request r_login POST ∅
               {["username" := "admin"; "password" := "guess"]} in
  ¬ (Views.form_get req "username" = admin_username demo_params
     ∧ Views.form_get req "password" = admin_password demo_params)
  ∧ Views.is_admin_logged_in demo_params (session demo_admin_world) = true
  ∧ session (snd (demo_serve req demo_admin_world))
    = session demo_admin_world.
Proof.
  intros req.
  assert (H1 : ¬ (Views.form_get req "username" = admin_username demo_params
                  ∧ Views.form_get req "password"
                    = admin_password demo_params))
    by (intros [_ H]; vm_compute in H; discriminate).
  assert (H2 : Views.is_admin_logged_in demo_params
                 (session demo_admin_world) = true) by (vm_compute; reflexivity).
  split; [exact H1|]. split; [exact H2|].
  exact (proj1 (failed_login_keeps_session demo_params decimal
                  (fun name => name) decimal req demo_admin_world
                  eq_refl eq_refl H1 H2)).
Defined.

(** *** Instances of the further properties *)

(** Creating a post with a fresh slug keeps the sample slugs distinct. *)
Lemma requests_keep_slugs_unique_witness :
  unique_slugs (posts demo_admin_world)
  ∧ unique_slugs (posts (snd (demo_serve demo_create demo_admin_world))).
Proof.
  assert (H1 : unique_slugs (posts demo_admin_world)).
  { apply unique_slugs_of_list.
    refine (bool_decide_unpack (NoDup _) _). vm_compute. exact I. }
  exact (conj H1 (requests_keep_slugs_unique demo_params decimal
                    (fun name => name) decimal demo_create
                    demo_admin_world H1)).
Defined.

(** Editing post 2 changes its title and keeps its creation time. *)
Lemma posts_keep_key_and_date_witness :
  let update := demo_request (r_edit "2") POST ∅
                  {["title" := "Flask tricks"; "slug" := "flask-tips"]} in
  ∃ p p',
    posts demo_admin_world !! 2 = Some p
    ∧ posts (snd (demo_serve update demo_admin_world)) !! 2 = Some p'
    ∧ Posts.title p' = "Flask tricks"
    ∧ Posts.date p' = Posts.date p.
Proof.
  intros update. do 2 eexists.
  assert (H1 : posts demo_admin_world !! 2
               = Some (Posts.mk "Flask tips" "flask-tips" "Use blueprints"
                                "howto" 20 (Some "tips.png")))
    by reflexivity.
  assert (H2 : posts (snd (demo_serve update demo_admin_world)) !! 2
               = Some (Posts.mk "Flask tricks" "flask-tips" "" "" 20
                                (Some "")))
    by (vm_compute; reflexivity).
  split; [exact H1|]. split; [exact H2|]. split; [reflexivity|].
  exact (posts_keep_key_and_date demo_params decimal (fun name => name)
           decimal update demo_admin_world 2 _ H1 _ H2).
Defined.

(** An anonymous create submission adds no post. *)
Lemma anonymous_requests_write_no_post_witness :
  session demo_world !! "user" ≠ Some (admin_username demo_params)
  ∧ posts (snd (demo_serve demo_create demo_world)) = posts demo_world.
Proof.
  assert (H1 : session demo_world !! "user"
               ≠ Some (admin_username demo_params))
    by (vm_compute; discriminate).
  exact (conj H1 (proj1 (anonymous_requests_write_no_post demo_params decimal
                           (fun name => name) decimal demo_create
                           demo_world H1))).
Defined.

(** A GET on the delete route deletes nothing, even for the admin. *)
Lemma get_requests_are_read_only_witness :
  let req := demo_request (r_delete 2) GET ∅ ∅ in
  method req = GET
  ∧ posts (snd (demo_serve req demo_admin_world)) = posts demo_admin_world.
Proof.
  intros req.
  exact (conj eq_refl
           (proj1 (get_requests_are_read_only demo_params decimal
                     (fun name => name) decimal req demo_admin_world
                     eq_refl))).
Defined.


(** Page 2 of 3 carries both links. *)
Lemma index_links_match_page_witness :
  let req := demo_request r_index GET {["page" := "2"]} ∅ in
  let serve :=
    Views.full_dispatch_request five_per_page decimal (fun name => name)
      decimal in
  ∃ served prev next,
    fst (serve req twelve_posts_world)
    = render_template (index_html served prev next 2 3 12) 200
    ∧ (prev = None ↔ 2 = 1) ∧ (next = None ↔ 2 = 3)
    ∧ (∀ u, prev = Some u → u = url_for_page "index" (2 - 1)).
Proof.
  intros req serve.
  let v := eval vm_compute in (fst (serve req twelve_posts_world)) in
  assert (H1 : fst (serve req twelve_posts_world) = v)
    by exact (eq_refl v <: fst (serve req twelve_posts_world) = v).
  lazymatch type of H1 with
  | _ = render_template (index_html ?s ?p ?n _ _ _) _ => exists s, p, n
  end.
  split; [exact H1|].
  destruct (index_links_match_page five_per_page decimal (fun name => name)
              decimal req twelve_posts_world _ _ _ _ _ _ eq_refl eq_refl H1)
    as (_ & _ & Hprev & Hnext & Hprev_url & _).
  exact (conj Hprev (conj Hnext Hprev_url)).
Defined.

(** A page size of 0. *)
Lemma index_zero_page_size_fails_witness :
  let params :=
    {| admin_username := "admin"; admin_password := "s3cret";
       gmail_user := ""; gmail_pass := "";
       no_of_posts := Some 0; upload_folder := None |} in
  let req := demo_request r_index GET ∅ ∅ in
  default 5 (no_of_posts params) = 0
  ∧ fst (Views.full_dispatch_request params decimal (fun name => name)
           decimal req demo_world)
    = render_template server_error_html 500.
Proof.
  intros params req. split; [reflexivity|].
  rewrite (index_zero_page_size_fails params decimal (fun name => name)
             decimal req demo_world eq_refl eq_refl eq_refl).
  reflexivity.
Defined.

(** The last page of twelve posts, five a page, holds two. *)
Lemma index_page_is_never_short_witness :
  let req := demo_request r_index GET {["page" := "3"]} ∅ in
  let serve :=
    Views.full_dispatch_request five_per_page decimal (fun name => name)
      decimal in
  1 ≤ default 5 (no_of_posts five_per_page)
  ∧ Z.of_nat (size (posts twelve_posts_world)) ≤ 2 ^ 53
  ∧ ∃ served prev next,
      fst (serve req twelve_posts_world)
      = render_template (index_html served prev next 3 3 12) 200
      ∧ Z.of_nat (length served) = Z.min 5 (12 - (3 - 1) * 5).
Proof.
  intros req serve.
  assert (H1 : 1 ≤ default 5 (no_of_posts five_per_page))
    by (vm_compute; discriminate).
  assert (H2 : Z.of_nat (size (posts twelve_posts_world)) ≤ 2 ^ 53)
    by (vm_compute; discriminate).
  split; [exact H1|]. split; [exact H2|].
  let v := eval vm_compute in (fst (serve req twelve_posts_world)) in
  assert (H3 : fst (serve req twelve_posts_world) = v)
    by exact (eq_refl v <: fst (serve req twelve_posts_world) = v).
  lazymatch type of H3 with
  | _ = render_template (index_html ?s ?p ?n _ _ _) _ => exists s, p, n
  end.
  split; [exact H3|].
  exact (proj1 (index_page_is_never_short five_per_page decimal
                  (fun name => name) decimal req twelve_posts_world
                  _ _ _ _ _ _ eq_refl eq_refl H1 H2 H3)).
Defined.

(** Five items, two a page. *)
Lemma listing_pages_cover_all_posts_witness :
  let l := ["e"; "d"; "c"; "b"; "a"] in
  1 ≤ 2 ∧ Z.of_nat (length l) ≤ 2 ^ 53
  ∧ last_page_of (Z.of_nat (length l)) 2 = inr 3
  ∧ concat ((λ page, limit 2 (offset ((page - 1) * 2) l)) <$> seqZ 1 3) = l.
Proof.
  intros l.
  assert (H1 : 1 ≤ 2) by lia.
  assert (H2 : Z.of_nat (length l) ≤ 2 ^ 53) by (vm_compute; discriminate).
  assert (H3 : last_page_of (Z.of_nat (length l)) 2 = inr 3)
    by (vm_compute; reflexivity).
  exact (conj H1 (conj H2 (conj H3
           (listing_pages_cover_all_posts l 2 3 H1 H2 H3)))).
Defined.

(** The Flask post under its slug. *)
Lemma post_view_serves_the_slug_witness :
  let req := demo_request (r_post "flask-tips") GET ∅ ∅ in
  unique_slugs (posts demo_world)
  ∧ ∃ p, posts demo_world !! 2 = Some p ∧ Posts.slug p = "flask-tips"
         ∧ fst (demo_serve req demo_world)
           = render_template (post_html (2, p)) 200.
Proof.
  intros req.
  assert (H1 : unique_slugs (posts demo_world)).
  { apply unique_slugs_of_list.
    refine (bool_decide_unpack (NoDup _) _). vm_compute. exact I. }
  split; [exact H1|]. eexists.
  assert (H2 : posts demo_world !! 2
               = Some (Posts.mk "Flask tips" "flask-tips" "Use blueprints"
                                "howto" 20 (Some "tips.png")))
    by reflexivity.
  split; [exact H2|]. split; [reflexivity|].
  unfold demo_serve.
  rewrite (proj2 (post_view_serves_the_slug demo_params decimal
                    (fun name => name) decimal req demo_world "flask-tips"
                    eq_refl eq_refl) 2 _ H1 H2 eq_refl).
  reflexivity.
Defined.

(** The dashboard of the sample admin. *)
Lemma dashboard_lists_every_post_oldest_first_witness :
  let req := demo_request r_dashboard GET ∅ ∅ in
  Views.is_admin_logged_in demo_params (session demo_admin_world) = true
  ∧ ∃ listed,
      fst (demo_serve req demo_admin_world)
      = render_template (dashboard_html listed) 200
      ∧ Sorted date_asc listed.
Proof.
  intros req.
  assert (H1 : Views.is_admin_logged_in demo_params
                 (session demo_admin_world) = true)
    by (vm_compute; reflexivity).
  split; [exact H1|].
  destruct (dashboard_lists_every_post_oldest_first demo_params decimal
              (fun name => name) decimal req demo_admin_world
              eq_refl eq_refl H1) as (listed & Hrun & Hsorted & _).
  exists listed. unfold demo_serve. rewrite Hrun. split; [reflexivity|].
  exact Hsorted.
Defined.

(** There is no post 9. *)
Lemma edit_unknown_post_is_not_found_witness :
  let req := demo_request (r_edit "9") POST ∅ {["slug" := "nine"]} in
  Views.is_admin_logged_in demo_params (session demo_admin_world) = true
  ∧ (∀ k, decimal "9" = Some k → posts demo_admin_world !! k = None)
  ∧ demo_serve req demo_admin_world
    = (render_template not_found_html 404,
       log_event (ev_select "posts") demo_admin_world).
Proof.
  intros req.
  assert (H1 : Views.is_admin_logged_in demo_params
                 (session demo_admin_world) = true)
    by (vm_compute; reflexivity).
  assert (H2 : ∀ k, decimal "9" = Some k
                    → posts demo_admin_world !! k = None)
    by (intros k [= <-]; reflexivity).
  exact (conj H1 (conj H2
           (edit_unknown_post_is_not_found demo_params decimal
              (fun name => name) decimal req demo_admin_world "9"
              eq_refl H1 ltac:(discriminate) H2))).
Defined.



(** Delete, then view. *)
Lemma deleted_post_is_gone_from_its_slug_witness :
  let remove := demo_request (r_delete 2) POST ∅ ∅ in
  let view := demo_request (r_post "flask-tips") GET ∅ ∅ in
  Views.is_admin_logged_in demo_params (session demo_admin_world) = true
  ∧ unique_slugs (posts demo_admin_world)
  ∧ fst (demo_serve view (snd (demo_serve remove demo_admin_world)))
    = render_template not_found_html 404.
Proof.
  intros remove view.
  assert (H1 : Views.is_admin_logged_in demo_params
                 (session demo_admin_world) = true)
    by (vm_compute; reflexivity).
  assert (H2 : unique_slugs (posts demo_admin_world)).
  { apply unique_slugs_of_list.
    refine (bool_decide_unpack (NoDup _) _). vm_compute. exact I. }
  exact (conj H1 (conj H2
           (deleted_post_is_gone_from_its_slug demo_params decimal
              (fun name => name) decimal remove view demo_admin_world 2
              (Posts.mk "Flask tips" "flask-tips" "Use blueprints" "howto" 20
                        (Some "tips.png"))
              eq_refl eq_refl H1 H2 eq_refl eq_refl eq_refl))).
Defined.

(** After logout the dashboard redirects. *)
Lemma logout_ends_the_admin_session_witness :
  let req := demo_request r_logout GET ∅ ∅ in
  let w' := snd (demo_serve req demo_admin_world) in
  Views.is_admin_logged_in demo_params (session demo_admin_world) = true
  ∧ Views.is_admin_logged_in demo_params (session w') = false
  ∧ demo_serve (demo_request r_dashboard GET ∅ ∅) w'
    = (redirect (url_for "login"), w').
Proof.
  intros req w'.
  destruct (logout_ends_the_admin_session demo_params decimal
              (fun name => name) decimal req demo_admin_world
              eq_refl eq_refl) as (_ & _ & _ & Hanon & Hgate).
  split; [vm_compute; reflexivity|]. split; [exact Hanon|].
  apply Hgate; [reflexivity|]. apply list_elem_of_here.
Defined.

(** Two uploads of logo.png. *)
Lemma upload_replaces_a_file_of_the_same_name_witness :
  let first :=
    {| route := r_upload; method := POST; args := ∅; form := ∅;
       files := {["file1" := {| filename := "logo.png"; stream := "old" |}]};
       now := 1700000000; smtp_error := None |} in
  let second :=
    {| route := r_upload; method := POST; args := ∅; form := ∅;
       files := {["file1" := {| filename := "logo.png"; stream := "new" |}]};
       now := 1700000100; smtp_error := None |} in
  Views.is_admin_logged_in demo_params (session demo_admin_world) = true
  ∧ allowed_file "logo.png" = true
  ∧ uploaded (snd (demo_serve second
                     (snd (demo_serve first demo_admin_world))))
    = {["static/uploads/logo.png" := "new"]}.
Proof.
  intros first second.
  assert (H1 : Views.is_admin_logged_in demo_params
                 (session demo_admin_world) = true)
    by (vm_compute; reflexivity).
  assert (H2 : allowed_file "logo.png" = true) by (vm_compute; reflexivity).
  split; [exact H1|]. split; [exact H2|].
  unfold demo_serve.
  rewrite (upload_replaces_a_file_of_the_same_name demo_params decimal
             (fun name => name) decimal first second demo_admin_world
             {| filename := "logo.png"; stream := "old" |}
             {| filename := "logo.png"; stream := "new" |}
             eq_refl eq_refl eq_refl eq_refl H1 eq_refl eq_refl H2 H2
             eq_refl).
  vm_compute. reflexivity.
Defined.

(** A double extension is judged by its last part. *)
Lemma allowed_file_reads_the_last_extension_witness :
  contains "." "PNG" = false
  ∧ allowed_file "shell.php.PNG" = true
  ∧ allowed_file "PNG" = false.
Proof.
  assert (H1 : contains "." "PNG" = false) by reflexivity.
  destruct (allowed_file_reads_the_last_extension "shell.php" "PNG" H1)
    as [Hlast Hbare].
  split; [exact H1|]. split; [|exact Hbare].
  change ("shell.php" +:+ "." +:+ "PNG") with "shell.php.PNG" in Hlast.
  rewrite Hlast. vm_compute. reflexivity.
Defined.
